(** * redi/upload.py: uploading form events to REDCap

    A shallow embedding of [src/redi/upload.py] and the properties of its
    four functions: [create_import_data_json], [create_redcap_records],
    [generate_output] and [handle_errors_in_redcap_xml_response].

    Python dictionaries are stdpp [gmap]s, the dedup tracker is a [gset] of
    triples, exceptions are values of [exn], and the code that mutates
    objects living outside the function (the tracker, the remote project,
    the report's error list) is written in a state-and-exception monad
    whose state survives a raise, as the mutated objects do. *)

From Stdlib Require Import ZArith.
From stdpp Require Import gmap strings list fin_maps.

Local Open Scope string_scope.
Local Open Scope Z_scope.
Local Open Scope list_scope.

(** ** Python exceptions raised by the module *)

Inductive exn : Type :=
  | Exception (message : string)      (* raise Exception('...') *)
  | AssertionError (message : string) (* a failed assert *)
  | KeyError (key : string)           (* d[key] on a dict without key *)
  | TypeError                         (* operand of the wrong type *)
  | IndexError                        (* [][0] *)
  | ValueError                        (* ast.literal_eval on a non-literal
                                         (ValueError or SyntaxError) *)
  | UnboundLocalError.                (* local read before assignment *)

(** A computation that returns or raises, without state. *)
Definition exc (A : Type) : Type := exn + A.

(** ** The lxml element tree *)

Module Etree.

(** An element: tag, attributes, the text before its first child
    ([None] when there is none), and its child elements. *)
#[warnings="-register-all"]
Inductive Element : Type :=
  mkElement { tag : string;
              attrib : list (string * string);
              text : option string;
              children : list Element }.

(** [e.xpath('t')]: the children of [e] with tag [t], in order. *)
Definition xpath_child (t : string) (e : Element) : list Element :=
  filter (λ c, tag c = t) (children e).

(** [e.find('t')]: the first child with tag [t], or [None]. *)
Definition find (t : string) (e : Element) : option Element :=
  head (xpath_child t e).

(** [e.findtext('t')]: the text of the first child with tag [t], the
    empty string when that child has no text, [None] when there is no such
    child. *)
Definition findtext (t : string) (e : Element) : option string :=
  match find t e with
  | Some c => Some (default "" (text c))
  | None => None
  end.

(** [e.findtext('t', d)]: the same with the default [d] instead of [None]. *)
Definition findtext_or (t d : string) (e : Element) : string :=
  default d (findtext t e).

(** [e.get('k')]: the attribute [k], or [None]. *)
Definition get (k : string) (e : Element) : option string :=
  (λ kv, kv.2) <$> head (filter (λ kv, kv.1 = k) (attrib e)).

(** [e.iter()]: the element and its descendants in document order. *)
Fixpoint iter (e : Element) : list Element :=
  e :: (fix over (cs : list Element) : list Element :=
          match cs with
          | [] => []
          | c :: cs' => iter c ++ over cs'
          end) (children e).

(** [root.xpath('//t')]: every element of the document with tag [t]. *)
Definition xpath_descendant (t : string) (root : Element) : list Element :=
  filter (λ c, tag c = t) (iter root).

End Etree.

Import Etree.

(** ** Python values

    The values [ast.literal_eval] can produce (floats and complex numbers
    left out), and the four operations the module applies to them. *)

Module Py.

#[warnings="-register-all"]
Inductive pyval : Type :=
  | PNone
  | PBool (b : bool)
  | PInt (n : Z)
  | PStr (s : string)
  | PList (items : list pyval)
  | PTuple (items : list pyval)
  | PDict (items : list (pyval * pyval)).
    (* the items of the dictionary; a lookup takes the first item stored
       under the key *)

(** Truth value of a string: [bool(s)]. *)
Definition truthy (s : string) : bool :=
  match s with
  | EmptyString => false
  | String _ _ => true
  end.

(** [v == s] for a string [s]: only a string compares equal to a string. *)
Definition eq_str (s : string) (v : pyval) : bool :=
  match v with
  | PStr s' => bool_decide (s' = s)
  | _ => false
  end.

(** [needle in hay] on two strings. *)
Fixpoint substring_of (needle hay : string) : bool :=
  String.prefix needle hay ||
  match hay with
  | EmptyString => false
  | String _ hay' => substring_of needle hay'
  end.

(** The characters of a string, each a string of length one. *)
Fixpoint chars (s : string) : list pyval :=
  match s with
  | EmptyString => []
  | String a s' => PStr (String a EmptyString) :: chars s'
  end.

(** [s in v]: a key of a dict, an item of a list or tuple, a substring of
    a string; [TypeError] on what is not a container. *)
Definition contains (s : string) (v : pyval) : exc bool :=
  match v with
  | PDict items => inr (existsb (λ kv, eq_str s kv.1) items)
  | PList items | PTuple items => inr (existsb (eq_str s) items)
  | PStr hay => inr (substring_of s hay)
  | PNone | PBool _ | PInt _ => inl TypeError
  end.

(** [d.get(s)] on the items of a dict. *)
Fixpoint lookup_str (s : string) (items : list (pyval * pyval))
    : option pyval :=
  match items with
  | [] => None
  | (k, v) :: items' => if eq_str s k then Some v else lookup_str s items'
  end.

(** [v[s]] with a string subscript: [KeyError] on a dict without the key,
    [TypeError] on everything that is not a dict. *)
Definition getitem (v : pyval) (s : string) : exc pyval :=
  match v with
  | PDict items =>
      match lookup_str s items with
      | Some x => inr x
      | None => inl (KeyError s)
      end
  | _ => inl TypeError
  end.

(** [for x in v]: the items of a list or tuple, the keys of a dict, the
    characters of a string; [TypeError] on what is not iterable. *)
Definition iterate (v : pyval) : exc (list pyval) :=
  match v with
  | PList items | PTuple items => inr items
  | PDict items => inr (items.*1)
  | PStr s => inr (chars s)
  | PNone | PBool _ | PInt _ => inl TypeError
  end.

(** [s + v] with a string on the left: concatenation with a string,
    [TypeError] otherwise. *)
Definition str_add (s : string) (v : pyval) : exc string :=
  match v with
  | PStr s' => inr (s +:+ s')
  | _ => inl TypeError
  end.

(** [repr(s)] of a plain string, as [str(KeyError(s))] prints it. *)
Definition repr_str (s : string) : string := "'" +:+ s +:+ "'".

End Py.

Import Py.

(** ** Field mappings and [create_import_data_json] *)

(** A record for REDCap: field name to value.  The key [None] is Python's
    [None], which [field.findtext('name')] yields for a field without a name
    element. *)
Abbreviation field_mapping := (gmap (option string) string).

(** Lines 47-50: every element matched by [//event/field/name] must have a
    text. *)
Fixpoint check_field_names (names : list Element) : exc unit :=
  match names with
  | [] => inr tt
  | name :: names' =>
      match text name with
      | None => inl (Exception "Expected non-blank element event/field/name")
      | Some _ => check_field_names names'
      end
  end.

(** [root.xpath('//event/field/name')]: an absolute path, so it is evaluated
    on the document the event belongs to, whatever the event is.  The nodes
    are listed event by event. *)
Definition xpath_event_field_name (document : Element) : list Element :=
  e ← xpath_descendant "event" document;
  f ← xpath_child "field" e;
  xpath_child "name" f.

(** Lines 56-61: one pass of the loop over the fields of the event. *)
Definition add_field (acc : field_mapping * bool) (field : Element)
    : field_mapping * bool :=
  let '(import_data_dict, contains_data) := acc in
  let val := findtext_or "value" "" field in
  (<[findtext "name" field := val]> import_data_dict,
   if truthy val && negb contains_data then true else contains_data).

(** [create_import_data_json(import_data_dict, event_tree)], with the
    document of [event_tree] as an explicit argument.  The result is the
    pair of ['json_data'] and ['contains_data']. *)
Definition create_import_data_json (document : Element)
    (import_data_dict : field_mapping) (event_tree : Element)
    : exc (field_mapping * bool) :=
  match find "name" event_tree with
  | None => inl (Exception "Expected non-blank element event/name")
  | Some event_name =>
      match text event_name with
      | None => inl (Exception "Expected non-blank element event/name")
      | Some name_text =>
          if truthy name_text then
            let import_data_dict :=
              <[Some "redcap_event_name" := name_text]> import_data_dict in
            match check_field_names (xpath_event_field_name document) with
            | inl e => inl e
            | inr _ =>
                inr (foldl add_field (import_data_dict, false)
                       (xpath_child "field" event_tree))
            end
          else inl (Exception "Expected non-blank element event/name")
      end
  end.

(** ** [create_redcap_records] *)

(** One item of the import data: (study_id_key, form_name, event_name,
    json_data_dict). *)
Abbreviation form_event := (string * string * string * field_mapping)%type.

(** [d.update(record)]: the entries of [record] replace those of [d]. *)
Definition dict_update (d record : field_mapping) : field_mapping :=
  record ∪ d.

(** Line 86: one pass of the loop on the [defaultdict(dict)].  Reading a
    missing key creates the empty dict there. *)
Definition merge_item (acc : gmap (string * string) field_mapping)
    (item : form_event) : gmap (string * string) field_mapping :=
  let '(subject_id_key, _, event_name, record) := item in
  <[(subject_id_key, event_name) :=
      dict_update (default ∅ (acc !! (subject_id_key, event_name))) record]> acc.

(** Lines 84-86: the dictionary after the loop. *)
Definition records_by_subject_and_event (import_data : list form_event)
    : gmap (string * string) field_mapping :=
  foldl merge_item ∅ import_data.

(** [create_redcap_records(import_data)]: the values of that dictionary.
    The code lists them in the order of its dictionary's table, the model
    in the order of its map; the statements about the result are about its
    members and their number, not about their order. *)
Definition create_redcap_records (import_data : list form_event)
    : list field_mapping :=
  (map_to_list (records_by_subject_and_event import_data)).*2.

(** ** The objects the module mutates, and its computations *)

(** What the remote project is sent in one call of
    [send_data_to_redcap(records, overwrite=...)]. *)
Abbreviation request := (list field_mapping * bool)%type.

(** The message of a [RedcapError], as [ast.literal_eval(str(message))] sees
    it: a text that is no Python literal, or the value the text denotes. *)
Inductive message : Type :=
  | NotLiteral (s : string)
  | Literal (v : pyval).

Definition literal_eval (m : message) : exc pyval :=
  match m with
  | NotLiteral _ => inl ValueError
  | Literal v => inr v
  end.

(** How one call of the client ends: a response, a [RedcapError], or some
    other exception. *)
Inductive send_result : Type :=
  | Sent (response : pyval)
  | RedcapError (msg : message)
  | Raises (e : exn).

Inductive level : Type := DEBUG | INFO | ERROR.

(** The per-subject dictionary of [subject_details]: the ['lab_id'] entry and
    the counters under the ['Total_<form>_Forms'] keys. *)
Record subject : Type := mkSubject {
  lab_id : option string;
  form_counts : gmap string Z
}.

(** The state: the objects shared with the caller ([sent_events], the
    remote project, the logger), and the locals of [generate_output]. *)
Record state : Type := mkState {
  sent_events : gset (string * string * string);
  requests : list request;          (* calls the client received, oldest first *)
  logged : list (level * string);   (* records emitted by the response parser *)
  errors : list string;             (* report_data['errors'] *)
  subject_details : gmap string subject;
  form_details : gmap string Z;
  person_count : Z;
  blanks : list form_event;
  study_id_key : option string      (* [None]: not assigned yet *)
}.

Definition set_sent_events f st := mkState (f (sent_events st)) (requests st)
  (logged st) (errors st) (subject_details st) (form_details st)
  (person_count st) (blanks st) (study_id_key st).
Definition set_requests f st := mkState (sent_events st) (f (requests st))
  (logged st) (errors st) (subject_details st) (form_details st)
  (person_count st) (blanks st) (study_id_key st).
Definition set_logged f st := mkState (sent_events st) (requests st)
  (f (logged st)) (errors st) (subject_details st) (form_details st)
  (person_count st) (blanks st) (study_id_key st).
Definition set_errors f st := mkState (sent_events st) (requests st)
  (logged st) (f (errors st)) (subject_details st) (form_details st)
  (person_count st) (blanks st) (study_id_key st).
Definition set_subject_details f st := mkState (sent_events st) (requests st)
  (logged st) (errors st) (f (subject_details st)) (form_details st)
  (person_count st) (blanks st) (study_id_key st).
Definition set_form_details f st := mkState (sent_events st) (requests st)
  (logged st) (errors st) (subject_details st) (f (form_details st))
  (person_count st) (blanks st) (study_id_key st).
Definition set_person_count f st := mkState (sent_events st) (requests st)
  (logged st) (errors st) (subject_details st) (form_details st)
  (f (person_count st)) (blanks st) (study_id_key st).
Definition set_blanks f st := mkState (sent_events st) (requests st)
  (logged st) (errors st) (subject_details st) (form_details st)
  (person_count st) (f (blanks st)) (study_id_key st).
Definition set_study_id_key f st := mkState (sent_events st) (requests st)
  (logged st) (errors st) (subject_details st) (form_details st)
  (person_count st) (blanks st) (f (study_id_key st)).

(** A computation on the state that returns or raises.  The state is
    returned in both cases: what was appended or marked before a raise stays
    appended and marked. *)
Definition M (A : Type) : Type := state → state * exc A.

Definition ret {A} (a : A) : M A := λ st, (st, inr a).
Definition raise {A} (e : exn) : M A := λ st, (st, inl e).
Definition bind {A B} (m : M A) (k : A → M B) : M B :=
  λ st, match m st with
        | (st', inr a) => k a st'
        | (st', inl e) => (st', inl e)
        end.
Definition lift {A} (r : exc A) : M A := λ st, (st, r).
Definition gets {A} (f : state → A) : M A := λ st, (st, inr (f st)).
Definition modify (f : state → state) : M unit := λ st, (f st, inr tt).

(** [try: body except KeyError as e: handler(e)]. *)
Definition try_except_KeyError {A} (body : M A) (handler : string → M A)
    : M A :=
  λ st, match body st with
        | (st', inl (KeyError k)) => handler k st'
        | r => r
        end.

Declare Scope M_scope.
Delimit Scope M_scope with M.
Notation "x <- m ;; k" := (bind m (λ x, k))
  (at level 100, m at next level, right associativity) : M_scope.
Notation "m ;;; k" := (bind m (λ _, k))
  (at level 100, right associativity) : M_scope.
Local Open Scope M_scope.

(** The same sequencing for computations without state. *)
Definition exc_bind {A B} (r : exc A) (k : A → exc B) : exc B :=
  match r with
  | inr a => k a
  | inl e => inl e
  end.
Notation "x <-! r ;; k" := (exc_bind r (λ x, k))
  (at level 100, r at next level, right associativity) : M_scope.

Definition log (lv : level) (msg : string) : M unit :=
  modify (set_logged (λ l, l ++ [(lv, msg)])).

(** ** [handle_errors_in_redcap_xml_response] *)

(** Lines 273-274: the error string of one entry of ['records'].  Python
    evaluates the sum left to right, so each subscript is taken just before
    it is added. *)
Definition error_string_of (recordData : pyval) : exc string :=
  record <-! getitem recordData "record";;
  s <-! str_add "Error writing to record " record;;
  field_name <-! getitem recordData "field_name";;
  s <-! str_add (s +:+ " field ") field_name;;
  value <-! getitem recordData "value";;
  s <-! str_add (s +:+ " Value ") value;;
  msg <-! getitem recordData "message";;
  str_add (s +:+ ".Error Message: ") msg.

(** Lines 272-276: the loop over [response['records']]. *)
Fixpoint record_errors (records : list pyval) : M unit :=
  match records with
  | [] => ret tt
  | recordData :: records' =>
      error_string <- lift (error_string_of recordData);;
      log INFO error_string;;;
      modify (set_errors (λ l, l ++ [error_string]));;;
      record_errors records'
  end.

(** Lines 271-278: the body of the [try]. *)
Definition parse_response (response : pyval) : M unit :=
  has_error <- lift (contains "error" response);;
  if has_error : bool then
    records <- lift (getitem response "records");;
    items <- lift (iterate records);;
    record_errors items
  else log ERROR "REDCap response is in unknown format".

(** [handle_errors_in_redcap_xml_response(redcap_response, report_data)];
    [report_data['errors']] is the [errors] of the state. *)
Definition handle_errors_in_redcap_xml_response (redcap_response : message)
    : M bool :=
  response <- lift (literal_eval redcap_response);;
  log DEBUG "handling response from the REDCap";;;
  try_except_KeyError (parse_response response)
                      (λ k, log ERROR (repr_str k));;;
  ret true.

(** ** The collaborators of [generate_output] *)

(** Modelled from the spec: the DedupTracker ([sent_events]), whose class is
    not part of this module.  [was_sent] answers whether the triple was
    marked, [mark_sent] marks it, and a mark is seen by every later
    [was_sent] of the run. *)
Definition was_sent (study_id form_name event_name : string) : M bool :=
  gets (λ st, bool_decide ((study_id, form_name, event_name) ∈ sent_events st)).

Definition mark_sent (study_id form_name event_name : string) : M unit :=
  modify (set_sent_events (λ s, {[(study_id, form_name, event_name)]} ∪ s)).

(** Modelled from the spec: [utils.throttle.Throttle(func, rate)], which is
    not part of this module.  It calls [func] with the same arguments and
    gives back what [func] returns or raises; the pause it may make before
    the call is not part of the state. *)
Definition Throttle {F : Type} (func : F) (rate : Z) : F := func.

(** The dictionary [generate_output] returns. *)
Record ReportData : Type := mkReportData {
  report_errors : list string;
  total_subjects : Z;
  report_form_details : gmap string Z;
  report_subject_details : gmap string subject
}.

(** How the loop over the events of a form goes on after one event. *)
Inductive control : Type := Continue | Break.

Section Orchestrator.

(** [redcap_client.project.def_field]. *)
Variable def_field : string.

(** [redcap_client.send_data_to_redcap]: what the remote project answers
    to a request, given the requests it received before. *)
Variable send_data_to_redcap : list request → request → send_result.

Variable rate_limit : Z.

(** The whole document ([person_tree.getroot()]), which
    [create_import_data_json] looks at through its absolute path. *)
Variable root : Element.

Variables skip_blanks bulk_send_blanks : bool.

(** One call of the client: the request reaches the remote project and is
    answered. *)
Definition client_call (records : list field_mapping) (overwrite : bool)
    : M send_result :=
  λ st, (set_requests (λ l, l ++ [(records, overwrite)]) st,
         inr (send_data_to_redcap (requests st) (records, overwrite))).

(** Lines 127-128. *)
Definition upload_data := Throttle client_call rate_limit.

(** [subject_details[study_id_key][form_key] += 1]. *)
Definition count_subject (study_id_key form_key : string) : M unit :=
  details <- gets subject_details;;
  match details !! study_id_key with
  | None => raise (KeyError study_id_key)
  | Some subj =>
      match form_counts subj !! form_key with
      | None => raise (KeyError form_key)
      | Some n =>
          modify (set_subject_details
            <[study_id_key :=
                mkSubject (lab_id subj) (<[form_key := n + 1]> (form_counts subj))]>)
      end
  end.

(** [form_details[form_key] += 1]. *)
Definition count_form (form_key : string) : M unit :=
  details <- gets form_details;;
  match details !! form_key with
  | None => raise (KeyError form_key)
  | Some n => modify (set_form_details <[form_key := n + 1]>)
  end.

(** Lines 186-189 and 217-220. *)
Definition count_if (contains_data : bool) (study_id_key form_key : string)
    : M unit :=
  if contains_data then
    count_subject study_id_key form_key;;;
    count_form form_key
  else ret tt.

(** Lines 172-228: the body of the loop over the events of a form.  The
    handler of line 226 logs and raises again, so an exception of the body
    is the exception of the whole; [event_count] is local to the progress
    messages and left out with them. *)
Definition process_event (study_id_key form_name form_key : string)
    (event : Element) : M control :=
  let event_name := findtext_or "name" "" event in
  if truthy event_name then
    import_dict <- lift (create_import_data_json root
                           {[Some def_field := study_id_key]} event);;
    let '(json_data_dict, contains_data) := import_dict in
    sent <- was_sent study_id_key form_name event_name;;
    if sent : bool then
      count_if contains_data study_id_key form_key;;;
      ret Continue
    else
      let is_blank := negb contains_data in
      if is_blank && skip_blanks then ret Break
      else if is_blank && bulk_send_blanks then
        modify (set_blanks (λ l, l ++ [(study_id_key, form_name, event_name,
                                        json_data_dict)]));;;
        ret Continue
      else
        result <- upload_data [json_data_dict] true;;
        match result with
        | Sent _ =>
            mark_sent study_id_key form_name event_name;;;
            count_if contains_data study_id_key form_key;;;
            ret Continue
        | RedcapError msg =>
            handle_errors_in_redcap_xml_response msg;;;
            ret Continue
        | Raises e => raise e
        end
  else raise (AssertionError "Missing name for form event").

(** Line 171: the loop over the events, left at the first [Break]. *)
Fixpoint process_events (study_id_key form_name form_key : string)
    (events : list Element) : M unit :=
  match events with
  | [] => ret tt
  | event :: events' =>
      c <- process_event study_id_key form_name form_key event;;
      match c with
      | Continue => process_events study_id_key form_name form_key events'
      | Break => ret tt
      end
  end.

(** Lines 153-162: the counters of a subject and of a form start at 0 the
    first time they are seen. *)
Definition init_subject (lab : option string) (study_id_key : string)
    (details : gmap string subject) : gmap string subject :=
  match details !! study_id_key with
  | Some _ => details
  | None => <[study_id_key := mkSubject lab ∅]> details
  end.

Definition init_counter (form_key : string) (counters : gmap string Z)
    : gmap string Z :=
  match counters !! form_key with
  | Some _ => counters
  | None => <[form_key := 0]> counters
  end.

Definition init_counters (lab : option string) (study_id_key form_key : string)
    : M unit :=
  modify (set_subject_details (init_subject lab study_id_key));;;
  modify (set_subject_details
            (alter (λ subj, mkSubject (lab_id subj)
                              (init_counter form_key (form_counts subj)))
                   study_id_key));;;
  modify (set_form_details (init_counter form_key)).

(** Lines 149-228: the body of the loop over the forms of a person.  A
    [study_id] without text makes line 164 raise [TypeError]; what lines
    151-162 stored under the key [None] until then is local to the call
    and lost with it. *)
Definition process_form (person study_id form : Element) : M unit :=
  match xpath_child "name" form with
  | [] => raise IndexError
  | name :: _ =>
      match text name with
      | None => raise TypeError
      | Some form_name =>
          let form_key := "Total_" +:+ form_name +:+ "_Forms" in
          match text study_id with
          | None => raise TypeError
          | Some key =>
              modify (set_study_id_key (λ _, Some key));;;
              init_counters (get "lab_id" person) key form_key;;;
              process_events key form_name form_key (xpath_child "event" form)
          end
      end
  end.

Fixpoint process_forms (person study_id : Element) (forms : list Element)
    : M unit :=
  match forms with
  | [] => ret tt
  | form :: forms' =>
      process_form person study_id form;;;
      process_forms person study_id forms'
  end.

(** Lines 134-232: the body of the loop over the persons.  Line 231 reads
    [study_id_key], which only the loop over the forms assigns. *)
Definition process_person (person : Element) : M unit :=
  modify (set_person_count (λ n, n + 1));;;
  match head (xpath_child "study_id" person) with
  | None => raise (Exception "Expected a valid value for study_id")
  | Some study_id =>
      process_forms person study_id
        (a ← xpath_child "all_form_events" person; xpath_child "form" a);;;
      key <- gets study_id_key;;
      match key with
      | None => raise UnboundLocalError
      | Some _ => ret tt
      end
  end.

Fixpoint process_persons (persons : list Element) : M unit :=
  match persons with
  | [] => ret tt
  | person :: persons' =>
      process_person person;;;
      process_persons persons'
  end.

(** Line 240-241. *)
Fixpoint mark_all_sent (deferred : list form_event) : M unit :=
  match deferred with
  | [] => ret tt
  | (study_id_key, form_name, event_name, _) :: deferred' =>
      mark_sent study_id_key form_name event_name;;;
      mark_all_sent deferred'
  end.

(** Lines 234-245: the bulk upload of the deferred blank events. *)
Definition send_blanks : M unit :=
  deferred <- gets blanks;;
  match deferred with
  | [] => ret tt
  | _ :: _ =>
      let records := create_redcap_records deferred in
      result <- upload_data records true;;
      match result with
      | Sent response =>
          mark_all_sent deferred;;;
          _ <- lift (getitem response "count");;
          ret tt
      | RedcapError msg =>
          handle_errors_in_redcap_xml_response msg;;;
          ret tt
      | Raises e => raise e
      end
  end.

(** Lines 104-130: the locals at the start of a run. *)
Definition fresh_locals (st : state) : state :=
  mkState (sent_events st) (requests st) (logged st) [] ∅ ∅ 0 [] None.

(** [generate_output(person_tree, redcap_client, rate_limit, sent_events,
    skip_blanks, bulk_send_blanks)]. *)
Definition generate_output : M ReportData :=
  modify fresh_locals;;;
  process_persons (xpath_descendant "person" root);;;
  send_blanks;;;
  st <- gets id;;
  ret (mkReportData (errors st) (person_count st) (form_details st)
                    (subject_details st)).

End Orchestrator.

(** * The vocabulary of the properties

    What the statements below speak of: the values and shapes of the inputs,
    the parts of the state an operation leaves alone, and sample inputs. *)

(** ** Sample documents *)

Module Samples.

Definition leaf (t : string) (s : option string) : Element :=
  mkElement t [] s [].

(** <field><name>n</name><value>v</value></field> *)
Definition field (n : string) (v : option string) : Element :=
  mkElement "field" [] None [leaf "name" (Some n); leaf "value" v].

(** <event><name>n</name> fields </event> *)
Definition event (n : string) (fields : list Element) : Element :=
  mkElement "event" [] None (leaf "name" (Some n) :: fields).

(** <form><name>n</name> events </form> *)
Definition form (n : string) (events : list Element) : Element :=
  mkElement "form" [] None (leaf "name" (Some n) :: events).

(** <person lab_id="L"><study_id>s</study_id>
      <all_form_events> forms </all_form_events></person> *)
Definition person (s : string) (forms : list Element) : Element :=
  mkElement "person" [("lab_id", "L")] None
    [leaf "study_id" (Some s); mkElement "all_form_events" [] None forms].

Definition study (persons : list Element) : Element :=
  mkElement "study" [] None persons.

(** An event with data and a blank one. *)
Definition with_data (n : string) : Element := event n [field "hgb" (Some "13.5")].
Definition blank (n : string) : Element := event n [field "hgb" None].

(** The state before a first run: nothing sent, nothing requested. *)
Definition st0 : state := mkState ∅ [] [] [] ∅ ∅ 0 [] None.

(** A remote project that accepts every request. *)
Definition accepting : list request → request → send_result :=
  λ _ r, Sent (PDict [(PStr "count", PInt (Z.of_nat (length r.1)))]).

(** A remote project that rejects every request with the given message. *)
Definition rejecting (msg : message) : list request → request → send_result :=
  λ _ _, RedcapError msg.

End Samples.

(** ** Events and their fields *)

(** The value [create_import_data_json] stores for a field. *)
Definition field_value (field : Element) : string :=
  findtext_or "value" "" field.

(** An element's text is blank: absent or empty. *)
Definition blank_text (t : option string) : Prop := t = None ∨ t = Some "".

(** <event><name>1_arm_1</name><field><value>7</value></field></event>:
    the field has no name element. *)
Definition event_with_unnamed_field : Element :=
  mkElement "event" [] None
    [Samples.leaf "name" (Some "1_arm_1");
     mkElement "field" [] None [Samples.leaf "value" (Some "7")]].

(** <event><name>1_arm_1</name>
      <field><name><![CDATA[]]></name><value>7</value></field></event>:
    the name of the field is the empty string. *)
Definition event_with_empty_field_name : Element :=
  mkElement "event" [] None
    [Samples.leaf "name" (Some "1_arm_1");
     mkElement "field" [] None
       [Samples.leaf "name" (Some ""); Samples.leaf "value" (Some "7")]].

(** ** Identities and merges *)

(** The identity under which records are merged: subject and event. *)
Definition identity (item : form_event) : string * string :=
  let '(subject_id_key, _, event_name, _) := item in (subject_id_key, event_name).

(** The mappings given under one identity, in the order of the iterable. *)
Definition mappings_of (k : string * string) (import_data : list form_event)
    : list field_mapping :=
  (filter (λ item, identity item = k) import_data).*2.

(** Merging in order, the later mapping winning on a common field. *)
Definition merged (mappings : list field_mapping) : field_mapping :=
  foldl dict_update ∅ mappings.

(** ** Payloads of the response parser *)

(** The error string of a failure of record [R], field [F], value [V] and
    message [Msg]. *)
Definition error_string (R F V Msg : string) : string :=
  "Error writing to record " +:+ R +:+ " field " +:+ F +:+ " Value " +:+ V
  +:+ ".Error Message: " +:+ Msg.

(** A well-formed entry of ['records']: a dict with the four expected keys,
    each with a string. *)
Definition well_formed_entry (recordData : pyval) (R F V Msg : string) : Prop :=
  ∃ items, recordData = PDict items ∧
    lookup_str "record" items = Some (PStr R) ∧
    lookup_str "field_name" items = Some (PStr F) ∧
    lookup_str "value" items = Some (PStr V) ∧
    lookup_str "message" items = Some (PStr Msg).

(** The state after the loop has appended and logged the given strings. *)
Definition recorded (strs : list string) (st : state) : state :=
  set_errors (λ l, l ++ strs) (set_logged (λ l, l ++ ((INFO,.) <$> strs)) st).

(** The keys of an entry of ['records']. *)
Definition expected_keys : list string :=
  ["record"; "field_name"; "value"; "message"].

(** The key is absent from the items, or has a string. *)
Definition string_or_missing (items : list (pyval * pyval)) (key : string)
    : bool :=
  match lookup_str key items with
  | None | Some (PStr _) => true
  | Some _ => false
  end.

(** An entry the loop can handle: a dict whose expected keys, where present,
    have strings. *)
Definition entry_shape (recordData : pyval) : bool :=
  match recordData with
  | PDict items => forallb (string_or_missing items) expected_keys
  | _ => false
  end.


(** The parser changes nothing but the error list and the log. *)
Definition same_world (st st' : state) : Prop :=
  sent_events st' = sent_events st ∧ requests st' = requests st ∧
  subject_details st' = subject_details st ∧
  form_details st' = form_details st ∧ person_count st' = person_count st ∧
  blanks st' = blanks st ∧ study_id_key st' = study_id_key st.


(** ** Counters and triples of the orchestrator *)

(** The per-subject counter of a form, and the per-form counter. *)
Definition subject_count (study_id_key form_key : string) (st : state)
    : option Z :=
  subject_details st !! study_id_key ≫= λ subj, form_counts subj !! form_key.

Definition form_count (form_key : string) (st : state) : option Z :=
  form_details st !! form_key.

(** What an update of the counters leaves alone. *)
Definition same_traffic (st st' : state) : Prop :=
  sent_events st' = sent_events st ∧ requests st' = requests st ∧
  logged st' = logged st ∧ errors st' = errors st ∧
  person_count st' = person_count st ∧ blanks st' = blanks st ∧
  study_id_key st' = study_id_key st.

Definition Z_of_flag (b : bool) : Z := if b then 1 else 0.

(** The event's name, as line 172 reads it. *)
Definition name_of (event : Element) : string := findtext_or "name" "" event.

(** The triple under which the tracker knows a deferred item. *)
Definition sent_key (item : form_event) : string * string * string :=
  let '(study_id_key, form_name, event_name, _) := item in
  (study_id_key, form_name, event_name).

(** ** Sample states and messages *)

Module Runs.

Import Samples.

(** The record of a sample event of subject S1. *)
Definition json (event_name value : string) : field_mapping :=
  <[Some "hgb" := value]>
    (<[Some "redcap_event_name" := event_name]> {[Some "record_id" := "S1"]}).

(** Subject S1 with one form and three events: blank, with data, blank. *)
Definition three_events : list Element :=
  [blank "1_arm_1"; with_data "2_arm_1"; blank "3_arm_1"].

Definition one_form : Element := study [person "S1" [form "cbc" three_events]].

(** The state in the loop over the events of form cbc of subject S1, with
    the given triples already sent. *)
Definition in_form (sent : gset (string * string * string)) : state :=
  mkState sent [] [] []
    {["S1" := mkSubject (Some "L") {["Total_cbc_Forms" := 0]}]}
    {["Total_cbc_Forms" := 0]} 1 [] (Some "S1").

(** A rejection REDCap words as a dictionary of failed records. *)
Definition rejection : message :=
  Literal (PDict [(PStr "error", PStr "There were data validation errors");
                  (PStr "records",
                   PList [PDict [(PStr "record", PStr "S1");
                                 (PStr "field_name", PStr "hgb");
                                 (PStr "value", PStr "13.5");
                                 (PStr "message", PStr "out of range")]])]).

End Runs.

(** ** The events a run visits, and what a step does to the traffic *)

(** [person.xpath('./all_form_events/form')]. *)
Definition forms_of (person : Element) : list Element :=
  a ← xpath_child "all_form_events" person; xpath_child "form" a.

(** The event is one the loops of [generate_output] come to, under the
    subject id and the form name they then hold. *)
Definition visited (root : Element) (study_id_key form_name : string)
    (event : Element) : Prop :=
  ∃ person study_id form name,
    person ∈ xpath_descendant "person" root ∧
    head (xpath_child "study_id" person) = Some study_id ∧
    text study_id = Some study_id_key ∧
    form ∈ forms_of person ∧
    head (xpath_child "name" form) = Some name ∧
    text name = Some form_name ∧
    event ∈ xpath_child "event" form.

(** The triples of the events of the document. *)
Definition in_document (root : Element) (key : string * string * string)
    : Prop :=
  ∃ study_id_key form_name event,
    visited root study_id_key form_name event ∧
    key = (study_id_key, form_name, name_of event).

(** The two states differ in the counters and in [study_id_key] at most. *)
Definition locals_only (st st' : state) : Prop :=
  sent_events st' = sent_events st ∧ requests st' = requests st ∧
  logged st' = logged st ∧ errors st' = errors st ∧
  blanks st' = blanks st ∧ person_count st' = person_count st.

(** What one pass of the loop over the events does to the tracker, the
    requests and the deferred items: nothing, or it defers the event, or it
    sends the event's record and marks the event if REDCap accepts it. *)
Inductive event_effect (skip_blanks bulk_send_blanks : bool)
    (key : string * string * string) (st st' : state) : Prop :=
  | effect_quiet :
      sent_events st' = sent_events st → requests st' = requests st →
      blanks st' = blanks st → errors st' = errors st →
      event_effect skip_blanks bulk_send_blanks key st st'
  | effect_deferred (json_data_dict : field_mapping) :
      skip_blanks = false → bulk_send_blanks = true →
      key ∉ sent_events st →
      sent_events st' = sent_events st → requests st' = requests st →
      blanks st' = blanks st ++ [(key, json_data_dict)] →
      errors st' = errors st →
      event_effect skip_blanks bulk_send_blanks key st st'
  | effect_sent (json_data_dict : field_mapping) :
      key ∉ sent_events st →
      requests st' = requests st ++ [([json_data_dict], true)] →
      blanks st' = blanks st →
      (sent_events st' = {[key]} ∪ sent_events st ∧ errors st' = errors st) ∨
      (sent_events st' = sent_events st ∧
       ∃ more, errors st' = errors st ++ more) →
      event_effect skip_blanks bulk_send_blanks key st st'.

(** What a run has done to the traffic since the state [st0]: the marks of
    [st0] are kept, a new mark is the triple of an event of the document,
    the requests of [st0] are followed by requests with overwrite set, and
    the deferred items are of events of the document. *)
Definition traffic_grows (root : Element) (st0 st : state) : Prop :=
  sent_events st0 ⊆ sent_events st ∧
  (∀ key, key ∈ sent_events st → key ∈ sent_events st0 ∨ in_document root key) ∧
  (∃ more, requests st = requests st0 ++ more ∧
           Forall (λ r : request, r.2 = true) more) ∧
  Forall (λ item, in_document root (sent_key item)) (blanks st).

(** Nothing was requested, marked, deferred or reported since [st0]. *)
Definition no_traffic (st0 st : state) : Prop :=
  sent_events st = sent_events st0 ∧ requests st = requests st0 ∧
  blanks st = [] ∧ errors st = [].

(** ** The counters of the report *)

(** The counter of a form in the dictionary of a subject, 0 when the
    subject has none. *)
Definition count_of (form_key : string) (subj : subject) : Z :=
  default 0 (form_counts subj !! form_key).

(** The sum over the subjects of their counters of a form. *)
Definition total (form_key : string) (details : gmap string subject) : Z :=
  map_fold (λ _ subj acc, count_of form_key subj + acc) 0 details.

(** The per-form counters are the sums of the per-subject counters, and a
    form counted for a subject has its per-form counter. *)
Definition counters_consistent (st : state) : Prop :=
  (∀ form_key,
     total form_key (subject_details st) = default 0 (form_details st !! form_key)) ∧
  (∀ key subj form_key,
     subject_details st !! key = Some subj →
     is_Some (form_counts subj !! form_key) →
     is_Some (form_details st !! form_key)).

(** * Properties *)

(** ** Running a computation step by step *)

Lemma bind_ret {A B} (a : A) (k : A → M B) st : bind (ret a) k st = k a st.
Proof. reflexivity. Qed.

Lemma bind_raise {A B} (e : exn) (k : A → M B) st :
  bind (raise e) k st = (st, inl e).
Proof. reflexivity. Qed.

Lemma bind_gets {A B} (f : state → A) (k : A → M B) st :
  bind (gets f) k st = k (f st) st.
Proof. reflexivity. Qed.

Lemma bind_modify {B} (f : state → state) (k : unit → M B) st :
  bind (modify f) k st = k tt (f st).
Proof. reflexivity. Qed.

Lemma bind_lift_inr {A B} (a : A) (k : A → M B) st :
  bind (lift (inr a)) k st = k a st.
Proof. reflexivity. Qed.

Lemma bind_lift_inl {A B} (e : exn) (k : A → M B) st :
  bind (lift (inl e)) k st = (st, inl e).
Proof. reflexivity. Qed.

Lemma bind_bind {A B C} (m : M A) (k : A → M B) (h : B → M C) st :
  bind (bind m k) h st = bind m (λ a, bind (k a) h) st.
Proof. unfold bind. by destruct (m st) as [st' [e|a]]. Qed.

Lemma bind_run {A B} (m : M A) (k : A → M B) st st' a :
  m st = (st', inr a) → bind m k st = k a st'.
Proof. unfold bind. by intros ->. Qed.

Lemma bind_run_raise {A B} (m : M A) (k : A → M B) st st' e :
  m st = (st', inl e) → bind m k st = (st', inl e).
Proof. unfold bind. by intros ->. Qed.

Create Rewrite HintDb run.
#[local] Hint Rewrite @bind_ret @bind_raise @bind_gets @bind_modify
  @bind_lift_inr @bind_lift_inl : run.

(** ** The event transformer *)

Lemma truthy_spec (s : string) : truthy s = true ↔ s ≠ "".
Proof. destruct s; simpl; split; congruence. Qed.

Lemma add_field_flag acc field :
  (add_field acc field).2 = acc.2 || truthy (field_value field).
Proof.
  destruct acc as [d b]; simpl. fold (field_value field).
  destruct (truthy (field_value field)), b; reflexivity.
Qed.

Lemma foldl_add_field_flag fields acc :
  (foldl add_field acc fields).2
  = acc.2 || existsb (λ f, truthy (field_value f)) fields.
Proof.
  revert acc. induction fields as [|f fields IH]; intros acc; simpl.
  - by rewrite orb_false_r.
  - by rewrite IH, add_field_flag, orb_assoc.
Qed.

Lemma existsb_elem_of {A} (p : A → bool) (l : list A) :
  existsb p l = true ↔ ∃ x, x ∈ l ∧ p x = true.
Proof.
  rewrite existsb_exists. by setoid_rewrite list_elem_of_In.
Qed.

(** What the transformer returns when it returns: the fold over the fields
    of the event, started from the seed with the event name added. *)
Lemma create_import_data_json_inr document seed event r :
  create_import_data_json document seed event = inr r →
  ∃ name_text,
    (find "name" event ≫= text) = Some name_text ∧ name_text ≠ "" ∧
    check_field_names (xpath_event_field_name document) = inr tt ∧
    r = foldl add_field (<[Some "redcap_event_name" := name_text]> seed, false)
          (xpath_child "field" event).
Proof.
  unfold create_import_data_json.
  destruct (find "name" event) as [n|]; [|discriminate]; simpl.
  destruct (text n) as [s|]; [|discriminate].
  destruct (truthy s) eqn:Hs; [|discriminate].
  destruct (check_field_names _) as [e|[]]; [discriminate|].
  intros [= <-]. exists s. by rewrite <- truthy_spec.
Qed.

(** The flag does not depend on the seed. *)
Lemma create_import_data_json_seed document seed seed' event json flag :
  create_import_data_json document seed event = inr (json, flag) →
  ∃ json', create_import_data_json document seed' event = inr (json', flag).
Proof.
  unfold create_import_data_json.
  destruct (find "name" event) as [n|]; [|discriminate].
  destruct (text n) as [s|]; [|discriminate].
  destruct (truthy s); [|discriminate].
  destruct (check_field_names _) as [e|[]]; [discriminate|].
  intros [= Hr]. apply (f_equal snd) in Hr.
  rewrite foldl_add_field_flag in Hr. simpl in Hr.
  eexists (foldl add_field _ _).1. f_equal.
  rewrite (surjective_pairing (foldl add_field _ _)) at 1. f_equal.
  by rewrite foldl_add_field_flag.
Qed.

(** C2: for an event the transformer accepts, the returned contains_data flag
    is true exactly when one of the event's fields has a non-empty value; the
    seeded subject-id entry plays no part, the flag being the same for every
    seed.  So it is false when all the values are blank. *)
Theorem create_import_data_json_contains_data
    document seed event json flag :
  create_import_data_json document seed event = inr (json, flag) →
  (flag = true ↔
     ∃ field, field ∈ xpath_child "field" event ∧ field_value field ≠ "") ∧
  ((∀ field, field ∈ xpath_child "field" event → field_value field = "") →
     flag = false) ∧
  (∀ seed', ∃ json',
     create_import_data_json document seed' event = inr (json', flag)).
Proof.
  intros Hrun.
  assert (Hiff : flag = true ↔
     ∃ field, field ∈ xpath_child "field" event ∧ field_value field ≠ "").
  { destruct (create_import_data_json_inr _ _ _ _ Hrun) as (s & _ & _ & _ & Hr).
    apply (f_equal snd) in Hr. simpl in Hr.
    rewrite foldl_add_field_flag in Hr. simpl in Hr. subst flag.
    rewrite existsb_elem_of. by setoid_rewrite truthy_spec. }
  split; [exact Hiff|]. split.
  - intros Hblank. destruct flag; [|done].
    destruct (proj1 Hiff eq_refl) as (f & Hf & Hne). by destruct Hne; apply Hblank.
  - intros seed'. by eapply create_import_data_json_seed.
Qed.

Lemma create_import_data_json_contains_data_witness :
  let event := Samples.with_data "1_arm_1" in
  let json := <[Some "hgb" := "13.5"]>
                (<[Some "redcap_event_name" := "1_arm_1"]>
                   {[Some "record_id" := "S1"]}) : field_mapping in
  create_import_data_json event {[Some "record_id" := "S1"]} event
    = inr (json, true) ∧
  (true = true ↔
     ∃ field, field ∈ xpath_child "field" event ∧ field_value field ≠ "").
Proof.
  intros event json.
  assert (H : create_import_data_json event {[Some "record_id" := "S1"]} event
              = inr (json, true)) by (vm_compute; reflexivity).
  split; [exact H|].
  exact (proj1 (create_import_data_json_contains_data _ _ _ _ _ H)).
Defined.

(** ** Validation by the event transformer *)

(** An event without a name element, or with a blank one, is rejected. *)
Lemma create_import_data_json_event_name document seed event :
  find "name" event = None ∨
  (∃ name, find "name" event = Some name ∧ blank_text (text name)) →
  create_import_data_json document seed event
  = inl (Exception "Expected non-blank element event/name").
Proof.
  unfold create_import_data_json.
  intros [-> | (name & -> & [-> | ->])]; reflexivity.
Qed.

Lemma check_field_names_inl names :
  (∃ name, name ∈ names ∧ text name = None) →
  check_field_names names
  = inl (Exception "Expected non-blank element event/field/name").
Proof.
  intros (name & Hin & Hnone).
  induction Hin as [name names | name other names Hin IH]; simpl.
  - by rewrite Hnone.
  - destruct (text other); [by apply IH | done].
Qed.

Lemma check_field_names_inr names :
  (∀ name, name ∈ names → text name ≠ None) →
  check_field_names names = inr tt.
Proof.
  induction names as [|name names IH]; intros Hall; simpl; [done|].
  destruct (text name) eqn:Ht.
  - apply IH. intros n Hn. apply Hall. by right.
  - by destruct (Hall name); [left|].
Qed.

(** A name element without text under any event/field of the document is
    rejected, whichever event is being transformed. *)
Lemma create_import_data_json_field_name_none document seed event name_text :
  (find "name" event ≫= text) = Some name_text → name_text ≠ "" →
  (∃ name, name ∈ xpath_event_field_name document ∧ text name = None) →
  create_import_data_json document seed event
  = inl (Exception "Expected non-blank element event/field/name").
Proof.
  intros Hname Hne Hbad. unfold create_import_data_json.
  destruct (find "name" event) as [n|]; [|discriminate]. simpl in Hname.
  rewrite Hname. apply truthy_spec in Hne. rewrite Hne.
  by rewrite check_field_names_inl.
Qed.

(** With a named event and a text in every event/field/name element of the
    document, the transformer returns. *)
Lemma create_import_data_json_returns document seed event name_text :
  (find "name" event ≫= text) = Some name_text → name_text ≠ "" →
  (∀ name, name ∈ xpath_event_field_name document → text name ≠ None) →
  ∃ r, create_import_data_json document seed event = inr r.
Proof.
  intros Hname Hne Hall. unfold create_import_data_json.
  destruct (find "name" event) as [n|]; [|discriminate]. simpl in Hname.
  rewrite Hname. apply truthy_spec in Hne. rewrite Hne.
  rewrite check_field_names_inr by done. eauto.
Qed.

(** C9: a field whose name is missing or blank is to be rejected with a
    validation error.  The transformer does not do so for a field that has
    no name element, nor for one whose name is the empty string: it returns,
    with the value stored under the key None, or under the empty name. *)
Theorem create_import_data_json_accepts_unnamed_field :
  create_import_data_json event_with_unnamed_field
      {[Some "record_id" := "S1"]} event_with_unnamed_field
  = inr (<[None := "7"]> (<[Some "redcap_event_name" := "1_arm_1"]>
                            {[Some "record_id" := "S1"]}), true) ∧
  create_import_data_json event_with_empty_field_name
      {[Some "record_id" := "S1"]} event_with_empty_field_name
  = inr (<[Some "" := "7"]> (<[Some "redcap_event_name" := "1_arm_1"]>
                               {[Some "record_id" := "S1"]}), true).
Proof. split; vm_compute; reflexivity. Qed.

(** ** The record aggregator *)

Lemma dict_update_lookup (d record : field_mapping) (f : option string) :
  dict_update d record !! f
  = match record !! f with Some v => Some v | None => d !! f end.
Proof.
  unfold dict_update. rewrite lookup_union.
  destruct (record !! f), (d !! f); reflexivity.
Qed.

(** The last mapping that has a field decides the field. *)
Lemma foldl_dict_update_last (d : field_mapping) earlier m later f v :
  m !! f = Some v →
  Forall (λ m' : field_mapping, m' !! f = None) later →
  foldl dict_update d (earlier ++ m :: later) !! f = Some v.
Proof.
  intros Hm Hlater. rewrite foldl_app. simpl.
  generalize (foldl dict_update d earlier). intros d'.
  assert (Hd : dict_update d' m !! f = Some v)
    by by rewrite dict_update_lookup, Hm.
  revert Hd. generalize (dict_update d' m). clear d' Hm.
  induction Hlater as [|m' later Hm' _ IH]; intros d' Hd; simpl; [done|].
  apply IH. by rewrite dict_update_lookup, Hm'.
Qed.

Lemma mappings_of_cons k item import_data :
  mappings_of k (item :: import_data)
  = if decide (identity item = k) then item.2 :: mappings_of k import_data
    else mappings_of k import_data.
Proof.
  unfold mappings_of. rewrite filter_cons. by case_decide.
Qed.

(** The dictionary built by the loop, read at one identity. *)
Lemma records_by_subject_and_event_foldl import_data acc k :
  foldl merge_item acc import_data !! k
  = match mappings_of k import_data with
    | [] => acc !! k
    | ms => Some (foldl dict_update (default ∅ (acc !! k)) ms)
    end.
Proof.
  revert acc. induction import_data as [|item import_data IH]; intros acc.
  { reflexivity. }
  simpl foldl. rewrite IH, mappings_of_cons.
  destruct item as [[[s fm] ev] record]. unfold merge_item, identity.
  case_decide as Hk.
  - subst k. rewrite lookup_insert_eq. simpl.
    by destruct (mappings_of _ import_data).
  - by rewrite lookup_insert_ne.
Qed.

Lemma records_by_subject_and_event_lookup import_data k :
  records_by_subject_and_event import_data !! k
  = match mappings_of k import_data with
    | [] => None
    | ms => Some (merged ms)
    end.
Proof.
  unfold records_by_subject_and_event.
  rewrite records_by_subject_and_event_foldl. by rewrite lookup_empty.
Qed.

Lemma mappings_of_nil k import_data :
  mappings_of k import_data = [] ↔ k ∉ identity <$> import_data.
Proof.
  induction import_data as [|item import_data IH].
  { split; [intros _ H; inversion H | done]. }
  rewrite mappings_of_cons, fmap_cons, not_elem_of_cons.
  case_decide as Hk.
  - split; [discriminate | by intros [[] _]].
  - rewrite IH. split; [by split; [congruence|] | by intros [_ ?]].
Qed.

Lemma records_by_subject_and_event_dom import_data :
  dom (records_by_subject_and_event import_data)
  = list_to_set (identity <$> import_data).
Proof.
  apply set_eq. intros k.
  rewrite elem_of_dom, elem_of_list_to_set, records_by_subject_and_event_lookup.
  destruct (mappings_of k import_data) eqn:Hms.
  - apply mappings_of_nil in Hms. split; [by intros [? ?] | done].
  - split; [|by eauto]. intros _.
    destruct (decide (k ∈ identity <$> import_data)) as [|Hn]; [done|].
    apply mappings_of_nil in Hn. congruence.
Qed.

(** Two items under one identity give one record, the second item's fields
    over the first's. *)
Lemma create_redcap_records_same_identity (s e f1 f2 : string)
    (m1 m2 : field_mapping) :
  create_redcap_records [(s, f1, e, m1); (s, f2, e, m2)]
  = [dict_update (dict_update ∅ m1) m2].
Proof.
  unfold create_redcap_records, records_by_subject_and_event.
  simpl foldl. unfold merge_item.
  rewrite lookup_empty, lookup_insert_eq. simpl default.
  by rewrite insert_insert_eq, insert_empty, map_to_list_singleton.
Qed.

(** The number of records is the number of distinct identities. *)
Lemma create_redcap_records_length import_data :
  length (create_redcap_records import_data)
  = length (remove_dups (identity <$> import_data)).
Proof.
  unfold create_redcap_records.
  rewrite length_fmap, length_map_to_list.
  rewrite <- (size_dom (D := gset (string * string))).
  rewrite records_by_subject_and_event_dom.
  rewrite <- (size_list_to_set (C := gset (string * string)))
    by apply NoDup_remove_dups.
  f_equal. apply set_eq. intros k.
  by rewrite !elem_of_list_to_set, elem_of_remove_dups.
Qed.

(** The records are the values of the dictionary of the loop. *)
Lemma create_redcap_records_elem (import_data : list form_event)
    (m : field_mapping) :
  m ∈ create_redcap_records import_data ↔
  ∃ k, records_by_subject_and_event import_data !! k = Some m.
Proof.
  unfold create_redcap_records. rewrite list_elem_of_fmap. split.
  - intros ([k m'] & -> & Hin). exists k. by apply elem_of_map_to_list.
  - intros [k Hk]. exists (k, m). split; [done|]. by apply elem_of_map_to_list.
Qed.

Lemma mappings_of_elem (k : string * string)
    (import_data : list form_event) (m : field_mapping) :
  m ∈ mappings_of k import_data →
  ∃ item, item ∈ import_data ∧ identity item = k ∧ item.2 = m.
Proof.
  unfold mappings_of. rewrite list_elem_of_fmap.
  intros (item & -> & Hitem). apply list_elem_of_filter in Hitem as [Hk Hin].
  by exists item.
Qed.

(** A field of a merge comes from the start or from one of the mappings. *)
Lemma foldl_dict_update_source (d : field_mapping)
    (mappings : list field_mapping) (f : option string) (v : string) :
  foldl dict_update d mappings !! f = Some v →
  d !! f = Some v ∨ ∃ m, m ∈ mappings ∧ m !! f = Some v.
Proof.
  revert d. induction mappings as [|m mappings IH]; intros d; [by left|].
  simpl. intros Hv. destruct (IH _ Hv) as [Hd | (m' & Hin & Hm')].
  - rewrite dict_update_lookup in Hd.
    destruct (m !! f) as [w|] eqn:Hm; [|by left].
    right. exists m. split; [by left|congruence].
  - right. exists m'. split; [by right|done].
Qed.

(** C6: the aggregator gives exactly one mapping per distinct
    (subject, event) identity of its input, that mapping is the merge, in
    input order, of the mappings given under that identity alone, and in a
    merge the last mapping that has a field decides it: {x:1} then {x:2}
    gives {x:2}, the reverse order gives {x:1}. *)
Theorem create_redcap_records_merges (import_data : list form_event) :
  length (create_redcap_records import_data)
    = length (remove_dups (identity <$> import_data)) ∧
  (∀ m, m ∈ create_redcap_records import_data ↔
        ∃ k, k ∈ identity <$> import_data ∧
             records_by_subject_and_event import_data !! k = Some m ∧
             m = merged (mappings_of k import_data)) ∧
  (∀ k earlier m later f v,
     mappings_of k import_data = earlier ++ m :: later →
     m !! f = Some v →
     Forall (λ m' : field_mapping, m' !! f = None) later →
     merged (mappings_of k import_data) !! f = Some v) ∧
  (∀ s e f1 f2 : string,
     let A : field_mapping := {[Some "x" := "1"]} in
     let B : field_mapping := {[Some "x" := "2"]} in
     create_redcap_records [(s, f1, e, A); (s, f2, e, B)] = [B] ∧
     create_redcap_records [(s, f2, e, B); (s, f1, e, A)] = [A]).
Proof.
  split; [|split; [|split]].
  - unfold create_redcap_records.
    rewrite length_fmap, length_map_to_list.
    rewrite <- (size_dom (D := gset (string * string))).
    rewrite records_by_subject_and_event_dom.
    rewrite <- (size_list_to_set (C := gset (string * string)))
      by apply NoDup_remove_dups.
    f_equal. apply set_eq. intros k.
    by rewrite !elem_of_list_to_set, elem_of_remove_dups.
  - intros m. unfold create_redcap_records. rewrite list_elem_of_fmap. split.
    + intros ([k m'] & -> & Hin). apply elem_of_map_to_list in Hin.
      exists k. simpl. split; [|split; [done|]].
      * apply (elem_of_list_to_set (C := gset (string * string))).
        rewrite <- records_by_subject_and_event_dom. apply elem_of_dom. eauto.
      * rewrite records_by_subject_and_event_lookup in Hin.
        destruct (mappings_of k import_data); congruence.
    + intros (k & _ & Hk & _). exists (k, m). split; [done|].
      by apply elem_of_map_to_list.
  - intros k earlier m later f v -> Hm Hlater.
    by apply foldl_dict_update_last.
  - intros s e f1 f2 A B.
    assert (HAB : dict_update (dict_update ∅ A) B = B).
    { apply map_eq. intros i. rewrite !dict_update_lookup, lookup_empty.
      subst A B. destruct (decide (i = Some "x")) as [->|].
      - by rewrite !lookup_singleton_eq.
      - by rewrite !lookup_singleton_ne. }
    assert (HBA : dict_update (dict_update ∅ B) A = A).
    { apply map_eq. intros i. rewrite !dict_update_lookup, lookup_empty.
      subst A B. destruct (decide (i = Some "x")) as [->|].
      - by rewrite !lookup_singleton_eq.
      - by rewrite !lookup_singleton_ne. }
    by rewrite !create_redcap_records_same_identity, HAB, HBA.
Qed.

(** ** The response parser *)

Lemma append_cons (x : Ascii.ascii) (a b : string) :
  String x a +:+ b = String x (a +:+ b).
Proof. reflexivity. Qed.

Lemma append_assoc (a b c : string) : (a +:+ b) +:+ c = a +:+ (b +:+ c).
Proof.
  induction a as [|x a IH]; [done|]. by rewrite !append_cons, IH.
Qed.

Lemma append_nil_r (a : string) : a +:+ "" = a.
Proof. induction a as [|x a IH]; [done|]. by rewrite append_cons, IH. Qed.

Lemma prefix_append (t b : string) : String.prefix t (t +:+ b) = true.
Proof.
  induction t as [|x t IH]; [by destruct b|].
  rewrite append_cons. simpl. by destruct (Ascii.ascii_dec x x).
Qed.

(** Python's [t in s] holds when [s] is [t] between two strings. *)
Lemma substring_of_append (a t b : string) :
  substring_of t (a +:+ t +:+ b) = true.
Proof.
  induction a as [|x a IH].
  - change ("" +:+ t +:+ b) with (t +:+ b).
    generalize (prefix_append t b).
    destruct (t +:+ b); simpl; intros ->; reflexivity.
  - rewrite append_cons. simpl. by rewrite IH, orb_true_r.
Qed.

Lemma error_string_of_well_formed recordData R F V Msg :
  well_formed_entry recordData R F V Msg →
  error_string_of recordData = inr (error_string R F V Msg).
Proof.
  intros (items & -> & HR & HF & HV & HM).
  unfold error_string_of, getitem. rewrite HR, HF, HV, HM. simpl.
  unfold error_string. by rewrite !append_assoc.
Qed.

Lemma recorded_nil st : recorded [] st = st.
Proof. destruct st. unfold recorded, set_errors, set_logged. simpl.
  by rewrite !app_nil_r. Qed.

Lemma recorded_cons s strs st :
  recorded strs (set_errors (λ l, l ++ [s]) (set_logged (λ l, l ++ [(INFO, s)]) st))
  = recorded (s :: strs) st.
Proof.
  destruct st. unfold recorded, set_errors, set_logged. simpl.
  by rewrite <- !app_assoc.
Qed.

(** The loop over the entries: the entries that yield a string are recorded
    in order, and the first that raises ends the loop with its exception. *)
Lemma record_errors_app entries strs rest st :
  Forall2 (λ r s, error_string_of r = inr s) entries strs →
  record_errors (entries ++ rest) st = record_errors rest (recorded strs st).
Proof.
  intros Hall. revert st.
  induction Hall as [|r s entries strs Hr _ IH]; intros st.
  { by rewrite recorded_nil. }
  simpl. unfold bind at 1, lift. rewrite Hr.
  unfold bind at 1, log, modify. unfold bind at 1.
  by rewrite IH, recorded_cons.
Qed.

Lemma record_errors_all entries strs st :
  Forall2 (λ r s, error_string_of r = inr s) entries strs →
  record_errors entries st = (recorded strs st, inr tt).
Proof.
  intros Hall. rewrite <- (app_nil_r entries).
  by rewrite (record_errors_app _ _ _ _ Hall).
Qed.

Lemma record_errors_raise recordData rest e st :
  error_string_of recordData = inl e →
  record_errors (recordData :: rest) st = (st, inl e).
Proof. intros He. simpl. unfold bind, lift. by rewrite He. Qed.

(** The parser on a payload that is a literal: the body of the [try], then
    the handler on a [KeyError]. *)
Lemma handle_errors_literal v st :
  handle_errors_in_redcap_xml_response (Literal v) st
  = match parse_response v
            (set_logged (λ l, l ++ [(DEBUG, "handling response from the REDCap")]) st)
    with
    | (st', inr _) => (st', inr true)
    | (st', inl (KeyError k)) =>
        (set_logged (λ l, l ++ [(ERROR, repr_str k)]) st', inr true)
    | (st', inl e) => (st', inl e)
    end.
Proof.
  unfold handle_errors_in_redcap_xml_response, bind, lift, log, modify,
    try_except_KeyError, ret. simpl.
  destruct (parse_response v _) as [st' [[]|[]]]; reflexivity.
Qed.

(** The parser on a dict with the 'error' marker and a list under
    'records'. *)
Lemma parse_response_records items entries st :
  contains "error" (PDict items) = inr true →
  lookup_str "records" items = Some (PList entries) →
  parse_response (PDict items) st = record_errors entries st.
Proof.
  intros Herr Hrec. unfold parse_response, bind, lift.
  rewrite Herr. simpl. by rewrite Hrec.
Qed.



Lemma entry_shape_error_string recordData :
  entry_shape recordData = true →
  (∃ s, error_string_of recordData = inr s) ∨
  (∃ k, error_string_of recordData = inl (KeyError k)).
Proof.
  destruct recordData as [| | | | | |items]; try discriminate.
  unfold entry_shape, expected_keys, string_or_missing, error_string_of, getitem.
  simpl forallb. rewrite !andb_true_iff.
  intros (HR & HF & HV & HM & _).
  destruct (lookup_str "record" items) as [[]|]; try discriminate; [|by eauto].
  destruct (lookup_str "field_name" items) as [[]|]; try discriminate; [|by eauto].
  destruct (lookup_str "value" items) as [[]|]; try discriminate; [|by eauto].
  destruct (lookup_str "message" items) as [[]|]; try discriminate; by eauto.
Qed.



Lemma same_world_refl st : same_world st st.
Proof. by repeat split. Qed.

Lemma same_world_trans st1 st2 st3 :
  same_world st1 st2 → same_world st2 st3 → same_world st1 st3.
Proof. unfold same_world. intuition congruence. Qed.

Lemma record_errors_same_world entries st :
  same_world st (record_errors entries st).1.
Proof.
  revert st. induction entries as [|r entries IH]; intros st.
  { apply same_world_refl. }
  simpl. unfold bind at 1, lift.
  destruct (error_string_of r) as [e|s]; [apply same_world_refl|].
  unfold bind at 1, log, modify. unfold bind at 1.
  eapply same_world_trans; [|apply IH]. by repeat split.
Qed.

Lemma parse_response_same_world response st :
  same_world st (parse_response response st).1.
Proof.
  unfold parse_response, bind, lift.
  destruct (contains "error" response) as [e|[]]; [apply same_world_refl| |].
  - destruct (getitem response "records") as [e|records];
      [apply same_world_refl|].
    destruct (iterate records) as [e|items]; [apply same_world_refl|].
    apply record_errors_same_world.
  - by repeat split.
Qed.

Lemma handle_errors_same_world msg st :
  same_world st (handle_errors_in_redcap_xml_response msg st).1.
Proof.
  destruct msg as [s|v]; [apply same_world_refl|].
  rewrite handle_errors_literal.
  pose proof (parse_response_same_world v
    (set_logged (λ l, l ++ [(DEBUG, "handling response from the REDCap")]) st))
    as Hw.
  destruct (parse_response v _) as [st' [[]|[]]]; simpl in *;
    (eapply same_world_trans; [|eapply same_world_trans; [exact Hw|]]);
    by repeat split.
Qed.

(** A payload with the 'error' marker and without 'records': the [KeyError]
    is logged and nothing else happens. *)
Lemma handle_errors_without_records items st :
  contains "error" (PDict items) = inr true →
  lookup_str "records" items = None →
  handle_errors_in_redcap_xml_response (Literal (PDict items)) st
  = (set_logged (λ l, l ++ [(DEBUG, "handling response from the REDCap");
                            (ERROR, "'records'")]) st, inr true).
Proof.
  intros Herr Hrec. rewrite handle_errors_literal.
  unfold parse_response, bind, lift. rewrite Herr. simpl. rewrite Hrec.
  destruct st. unfold set_logged. simpl. by rewrite <- app_assoc.
Qed.





(** C8: on the payload {"error": e, "records": [{"record": R,
    "field_name": F, "value": V, "message": Msg}]} the parser returns True
    and appends exactly one string to the errors, which contains R, F, V and
    Msg; on a payload with the 'error' marker and without 'records' the
    errors are left as they were. *)
Theorem handle_errors_one_record (e : pyval) (R F V Msg : string) (st : state) :
  let payload :=
    Literal (PDict [(PStr "error", e);
                    (PStr "records",
                     PList [PDict [(PStr "record", PStr R);
                                   (PStr "field_name", PStr F);
                                   (PStr "value", PStr V);
                                   (PStr "message", PStr Msg)]])]) in
  let s := error_string R F V Msg in
  (handle_errors_in_redcap_xml_response payload st).2 = inr true ∧
  errors (handle_errors_in_redcap_xml_response payload st).1
    = errors st ++ [s] ∧
  substring_of R s = true ∧ substring_of F s = true ∧
  substring_of V s = true ∧ substring_of Msg s = true ∧
  (∀ items,
     contains "error" (PDict items) = inr true →
     lookup_str "records" items = None →
     (handle_errors_in_redcap_xml_response (Literal (PDict items)) st).2
       = inr true ∧
     errors (handle_errors_in_redcap_xml_response (Literal (PDict items)) st).1
       = errors st).
Proof.
  intros payload s.
  assert (Hrun : handle_errors_in_redcap_xml_response payload st
    = (recorded [s] (set_logged
         (λ l, l ++ [(DEBUG, "handling response from the REDCap")]) st),
       inr true)).
  { unfold payload. rewrite handle_errors_literal.
    erewrite parse_response_records; [|reflexivity..].
    rewrite (record_errors_all _ [s]); [reflexivity|].
    repeat constructor. apply error_string_of_well_formed.
    eexists. by repeat split. }
  rewrite Hrun. repeat split.
  - unfold s, error_string. apply substring_of_append.
  - replace s with (("Error writing to record " +:+ R +:+ " field ") +:+ F
                    +:+ " Value " +:+ V +:+ ".Error Message: " +:+ Msg)
      by (unfold s, error_string; by rewrite !append_assoc).
    apply substring_of_append.
  - replace s with (("Error writing to record " +:+ R +:+ " field " +:+ F
                     +:+ " Value ") +:+ V +:+ ".Error Message: " +:+ Msg)
      by (unfold s, error_string; by rewrite !append_assoc).
    apply substring_of_append.
  - replace s with (("Error writing to record " +:+ R +:+ " field " +:+ F
                     +:+ " Value " +:+ V +:+ ".Error Message: ") +:+ Msg +:+ "")
      by (unfold s, error_string; by rewrite (append_nil_r Msg), !append_assoc).
    apply substring_of_append.
  - by rewrite handle_errors_without_records.
  - by rewrite handle_errors_without_records.
Qed.

(** An entry that misses an expected key and has strings under the others
    makes the loop raise [KeyError]. *)
Lemma error_string_of_missing_key items :
  forallb (string_or_missing items) expected_keys = true →
  (∃ key, key ∈ expected_keys ∧ lookup_str key items = None) →
  ∃ k, error_string_of (PDict items) = inl (KeyError k).
Proof.
  intros Hshape (key & Hkey & Hnone).
  destruct (entry_shape_error_string (PDict items) Hshape) as [[s Hs]|]; [|done].
  exfalso. revert Hs. unfold error_string_of, getitem.
  unfold expected_keys in Hkey.
  repeat (apply elem_of_cons in Hkey as [-> | Hkey]); [..|by inversion Hkey];
    repeat (rewrite ?Hnone;
            match goal with
            | |- context [lookup_str ?k items] =>
                destruct (lookup_str k items) as [[]|]
            end; simpl); discriminate.
Qed.

(** C10: the parser does not record errors atomically.  With the 'error'
    marker and, under 'records', well-formed entries followed by an entry
    that misses an expected key, the parser returns True after the key
    error, and the errors then hold the strings of the well-formed entries,
    appended in order. *)
Theorem handle_errors_keeps_earlier_errors
    items good strs bad_items rest (st : state) :
  contains "error" (PDict items) = inr true →
  lookup_str "records" items = Some (PList (good ++ PDict bad_items :: rest)) →
  Forall2 (λ r s, ∃ R F V Msg, well_formed_entry r R F V Msg ∧
                               s = error_string R F V Msg) good strs →
  forallb (string_or_missing bad_items) expected_keys = true →
  (∃ key, key ∈ expected_keys ∧ lookup_str key bad_items = None) →
  (handle_errors_in_redcap_xml_response (Literal (PDict items)) st).2
    = inr true ∧
  errors (handle_errors_in_redcap_xml_response (Literal (PDict items)) st).1
    = errors st ++ strs.
Proof.
  intros Herr Hrec Hgood Hshape Hmissing.
  destruct (error_string_of_missing_key _ Hshape Hmissing) as [k Hk].
  assert (Hgood' : Forall2 (λ r s, error_string_of r = inr s) good strs).
  { eapply Forall2_impl; [exact Hgood|].
    intros r s (R & F & V & Msg & Hwf & ->).
    by apply error_string_of_well_formed. }
  rewrite handle_errors_literal.
  rewrite (parse_response_records _ _ _ Herr Hrec).
  rewrite (record_errors_app _ _ _ _ Hgood').
  rewrite (record_errors_raise _ _ _ _ Hk). by split.
Qed.

Lemma handle_errors_keeps_earlier_errors_witness :
  let good := PDict [(PStr "record", PStr "R1"); (PStr "field_name", PStr "hgb");
                     (PStr "value", PStr "x"); (PStr "message", PStr "not a number")] in
  let bad := [(PStr "record", PStr "R2"); (PStr "value", PStr "y")] in
  let items := [(PStr "error", PStr "rejected");
                (PStr "records", PList [good; PDict bad; good])] in
  (handle_errors_in_redcap_xml_response (Literal (PDict items)) Samples.st0).2
    = inr true ∧
  errors (handle_errors_in_redcap_xml_response (Literal (PDict items))
            Samples.st0).1
    = [error_string "R1" "hgb" "x" "not a number"].
Proof.
  intros good bad items.
  apply (handle_errors_keeps_earlier_errors items [good]
           [error_string "R1" "hgb" "x" "not a number"] bad [good] Samples.st0).
  - reflexivity.
  - reflexivity.
  - repeat constructor. exists "R1", "hgb", "x", "not a number".
    split; [|reflexivity]. eexists. repeat split.
  - reflexivity.
  - exists "field_name". split; [|reflexivity]. right. left.
Defined.

(** ** The orchestrator, event by event *)

Section OrchestratorProperties.

Variable def_field : string.
Variable send_data_to_redcap : list request → request → send_result.
Variable rate_limit : Z.
Variable root : Element.
Variables skip_blanks bulk_send_blanks : bool.

(** The functions of the run under these parameters. *)
Local Abbreviation do_event :=
  (process_event def_field send_data_to_redcap rate_limit root
                 skip_blanks bulk_send_blanks).
Local Abbreviation do_events :=
  (process_events def_field send_data_to_redcap rate_limit root
                  skip_blanks bulk_send_blanks).
Local Abbreviation do_blanks := (send_blanks send_data_to_redcap rate_limit).

(** With both counters initialised, as the loop over the forms leaves them,
    counting an event with data adds one to each and counting a blank one
    changes nothing. *)
Lemma count_if_spec contains_data study_id_key form_key n m st :
  subject_count study_id_key form_key st = Some n →
  form_count form_key st = Some m →
  ∃ st', count_if contains_data study_id_key form_key st = (st', inr tt) ∧
         subject_count study_id_key form_key st'
           = Some (n + Z_of_flag contains_data) ∧
         form_count form_key st' = Some (m + Z_of_flag contains_data) ∧
         same_traffic st st'.
Proof.
  unfold subject_count, form_count. intros Hn Hm.
  destruct contains_data; simpl.
  2:{ exists st. rewrite Hn, Hm, !Z.add_0_r. by repeat split. }
  destruct (subject_details st !! study_id_key) as [subj|] eqn:Hsubj;
    [|discriminate]. simpl in Hn.
  unfold count_subject, count_form.
  rewrite bind_bind, bind_gets, Hsubj, Hn, bind_modify, bind_gets.
  change (form_details (set_subject_details _ st)) with (form_details st).
  rewrite Hm. eexists. split; [reflexivity|]. simpl.
  rewrite !lookup_insert_eq. simpl. rewrite lookup_insert_eq.
  by repeat split.
Qed.

(** An event that passes the assert of line 173 and that the transformer
    accepts comes to the decision of lines 184-224. *)
Lemma process_event_accepted study_id_key form_name form_key event
    json_data_dict contains_data st :
  truthy (name_of event) = true →
  create_import_data_json root {[Some def_field := study_id_key]} event
    = inr (json_data_dict, contains_data) →
  do_event study_id_key form_name form_key event st
  = if bool_decide ((study_id_key, form_name, name_of event) ∈ sent_events st)
    then (count_if contains_data study_id_key form_key;;; ret Continue) st
    else if negb contains_data && skip_blanks then (st, inr Break)
    else if negb contains_data && bulk_send_blanks then
      (set_blanks (λ l, l ++ [(study_id_key, form_name, name_of event,
                               json_data_dict)]) st, inr Continue)
    else
      let st1 := set_requests (λ l, l ++ [([json_data_dict], true)]) st in
      match send_data_to_redcap (requests st) ([json_data_dict], true) with
      | Sent _ =>
          (count_if contains_data study_id_key form_key;;; ret Continue)
            (set_sent_events
               (λ s, {[(study_id_key, form_name, name_of event)]} ∪ s) st1)
      | RedcapError msg =>
          (handle_errors_in_redcap_xml_response msg;;; ret Continue) st1
      | Raises e => (st1, inl e)
      end.
Proof.
  intros Hname Hjson. unfold process_event.
  fold (name_of event). rewrite Hname, Hjson, bind_lift_inr.
  unfold was_sent. rewrite bind_gets.
  case_bool_decide; [reflexivity|].
  destruct (negb contains_data && skip_blanks); [reflexivity|].
  destruct (negb contains_data && bulk_send_blanks); [reflexivity|].
  unfold upload_data, Throttle, client_call. unfold bind at 1.
  by destruct (send_data_to_redcap _ _).
Qed.

(** C3: for an event whose triple the tracker reports as sent, nothing is
    sent and nothing is marked; the per-subject and the per-form counters
    are each raised by one when the event has data and left alone when it is
    blank; and the loop goes on with the next event. *)
Theorem process_event_already_sent study_id_key form_name form_key event
    json_data_dict contains_data n m rest st :
  truthy (name_of event) = true →
  create_import_data_json root {[Some def_field := study_id_key]} event
    = inr (json_data_dict, contains_data) →
  (study_id_key, form_name, name_of event) ∈ sent_events st →
  subject_count study_id_key form_key st = Some n →
  form_count form_key st = Some m →
  ∃ st',
    do_event study_id_key form_name form_key event st
      = (st', inr Continue) ∧
    requests st' = requests st ∧ sent_events st' = sent_events st ∧
    blanks st' = blanks st ∧ errors st' = errors st ∧
    subject_count study_id_key form_key st'
      = Some (n + Z_of_flag contains_data) ∧
    form_count form_key st' = Some (m + Z_of_flag contains_data) ∧
    do_events study_id_key form_name form_key (event :: rest) st
      = do_events study_id_key form_name form_key rest st'.
Proof.
  intros Hname Hjson Hsent Hn Hm.
  destruct (count_if_spec contains_data _ _ _ _ _ Hn Hm)
    as (st' & Hcount & Hn' & Hm' & Hsame).
  assert (Hstep : do_event study_id_key form_name form_key event st
                  = (st', inr Continue)).
  { rewrite (process_event_accepted _ _ _ _ _ _ _ Hname Hjson).
    rewrite bool_decide_eq_true_2 by done.
    by rewrite (bind_run _ _ _ _ _ Hcount). }
  exists st'. destruct Hsame as (? & ? & ? & ? & ? & ? & ?).
  repeat split; try done.
  simpl.
  by rewrite (bind_run _ _ _ _ _ Hstep).
Qed.

(** Lines 153-162 initialise both counters of the form, so that the loop
    over its events finds them. *)
Lemma init_counters_spec lab study_id_key form_key st :
  ∃ st' n m,
    init_counters lab study_id_key form_key st = (st', inr tt) ∧
    subject_count study_id_key form_key st' = Some n ∧
    form_count form_key st' = Some m ∧
    same_traffic st st'.
Proof.
  unfold init_counters. rewrite !bind_modify.
  assert (Hcounter : ∀ counters : gmap string Z,
            is_Some (init_counter form_key counters !! form_key)).
  { intros counters. unfold init_counter.
    destruct (counters !! form_key) eqn:Hc; [by rewrite Hc|].
    rewrite lookup_insert_eq. eauto. }
  assert (Hsubject : is_Some (init_subject lab study_id_key (subject_details st)
                              !! study_id_key)).
  { unfold init_subject.
    destruct (subject_details st !! study_id_key) eqn:Hs; [by rewrite Hs|].
    rewrite lookup_insert_eq. eauto. }
  destruct Hsubject as [subj Hsubj].
  destruct (Hcounter (form_counts subj)) as [n Hn].
  destruct (Hcounter (form_details st)) as [m Hm].
  eexists _, n, m. split; [reflexivity|].
  unfold subject_count, form_count. simpl.
  rewrite lookup_alter_eq, Hsubj. simpl. by repeat split.
Qed.

(** X6: with bulk_send_blanks and without skip_blanks, a blank event that
    was not sent before is deferred: its item is appended to the deferred
    list, nothing is sent, marked or counted, and the loop goes on. *)
Lemma process_event_defers_blank study_id_key form_name form_key event
    json_data_dict st :
  skip_blanks = false → bulk_send_blanks = true →
  truthy (name_of event) = true →
  create_import_data_json root {[Some def_field := study_id_key]} event
    = inr (json_data_dict, false) →
  (study_id_key, form_name, name_of event) ∉ sent_events st →
  do_event study_id_key form_name form_key event st
  = (set_blanks (λ l, l ++ [(study_id_key, form_name, name_of event,
                             json_data_dict)]) st, inr Continue).
Proof.
  intros Hskip Hbulk Hname Hjson Hsent.
  rewrite (process_event_accepted _ _ _ _ _ _ _ Hname Hjson).
  rewrite bool_decide_eq_false_2 by done. by rewrite Hskip, Hbulk.
Qed.

(** C4: with skip_blanks, a blank event that was not sent before ends the
    loop over the events of its form: whatever events follow it, none is
    looked at, nothing is sent, marked, deferred or counted, and the loop
    returns so that the next form is taken. *)
Theorem process_events_skip_blanks study_id_key form_name form_key event
    json_data_dict rest st :
  skip_blanks = true →
  truthy (name_of event) = true →
  create_import_data_json root {[Some def_field := study_id_key]} event
    = inr (json_data_dict, false) →
  (study_id_key, form_name, name_of event) ∉ sent_events st →
  do_event study_id_key form_name form_key event st = (st, inr Break) ∧
  do_events study_id_key form_name form_key (event :: rest) st = (st, inr tt).
Proof.
  intros Hskip Hname Hjson Hsent.
  assert (Hstep : do_event study_id_key form_name form_key event st
                  = (st, inr Break)).
  { rewrite (process_event_accepted _ _ _ _ _ _ _ Hname Hjson).
    rewrite bool_decide_eq_false_2 by done. by rewrite Hskip. }
  split; [exact Hstep|]. simpl. by rewrite (bind_run _ _ _ _ _ Hstep).
Qed.

(** C1, as the code has it: an event that was not sent before and that is
    neither skipped nor deferred as blank is sent alone with overwrite set.
    On success its triple is marked, each counter is raised by one when the
    event has data, and the loop goes on.  On a RedcapError the message goes
    to the response parser and the triple is not marked; the loop goes on
    when the parser returns, and ends with the parser's exception when the
    parser raises. *)
Theorem process_event_normal_send study_id_key form_name form_key event
    json_data_dict contains_data n m rest st :
  truthy (name_of event) = true →
  create_import_data_json root {[Some def_field := study_id_key]} event
    = inr (json_data_dict, contains_data) →
  (study_id_key, form_name, name_of event) ∉ sent_events st →
  (contains_data = false → skip_blanks = false ∧ bulk_send_blanks = false) →
  subject_count study_id_key form_key st = Some n →
  form_count form_key st = Some m →
  let request := ([json_data_dict], true) in
  let st1 := set_requests (λ l, l ++ [request]) st in
  match send_data_to_redcap (requests st) request with
  | Sent _ =>
      ∃ st',
        do_event study_id_key form_name form_key event st
          = (st', inr Continue) ∧
        requests st' = requests st ++ [request] ∧
        sent_events st'
          = {[(study_id_key, form_name, name_of event)]} ∪ sent_events st ∧
        errors st' = errors st ∧
        subject_count study_id_key form_key st'
          = Some (n + Z_of_flag contains_data) ∧
        form_count form_key st' = Some (m + Z_of_flag contains_data) ∧
        do_events study_id_key form_name form_key (event :: rest) st
          = do_events study_id_key form_name form_key rest st'
  | RedcapError msg =>
      let parsed := handle_errors_in_redcap_xml_response msg st1 in
      requests parsed.1 = requests st ++ [request] ∧
      sent_events parsed.1 = sent_events st ∧
      subject_count study_id_key form_key parsed.1 = Some n ∧
      form_count form_key parsed.1 = Some m ∧
      match parsed.2 with
      | inr _ =>
          do_event study_id_key form_name form_key event st
            = (parsed.1, inr Continue) ∧
          do_events study_id_key form_name form_key (event :: rest) st
            = do_events study_id_key form_name form_key rest parsed.1
      | inl e =>
          do_event study_id_key form_name form_key event st
            = (parsed.1, inl e) ∧
          do_events study_id_key form_name form_key (event :: rest) st
            = (parsed.1, inl e)
      end
  | Raises e =>
      do_event study_id_key form_name form_key event st = (st1, inl e)
  end.
Proof.
  intros Hname Hjson Hsent Hblank Hn Hm request st1.
  pose proof (process_event_accepted study_id_key form_name form_key event
                _ _ st Hname Hjson) as Hstep.
  rewrite bool_decide_eq_false_2 in Hstep by done.
  assert (Hskip : negb contains_data && skip_blanks = false).
  { destruct contains_data; [done|]. by destruct Hblank as [-> _]. }
  assert (Hbulk : negb contains_data && bulk_send_blanks = false).
  { destruct contains_data; [done|]. by destruct Hblank as [_ ->]. }
  rewrite Hskip, Hbulk in Hstep. fold request st1 in Hstep. cbv zeta in Hstep.
  destruct (send_data_to_redcap (requests st) request) as [response|msg|e].
  - destruct (count_if_spec contains_data study_id_key form_key n m
                (set_sent_events
                   (λ s, {[(study_id_key, form_name, name_of event)]} ∪ s) st1))
      as (st' & Hcount & Hn' & Hm' & Hsame); [done..|].
    rewrite (bind_run _ _ _ _ _ Hcount) in Hstep.
    destruct Hsame as (Hs & Hr & _ & He & _).
    exists st'. repeat split; try done.
    simpl. by rewrite (bind_run _ _ _ _ _ Hstep).
  - intros parsed.
    destruct (handle_errors_same_world msg st1) as (Hs & Hr & Hsd & Hfd & _).
    fold parsed in Hs, Hr, Hsd, Hfd.
    split; [done|]. split; [done|].
    split; [by unfold subject_count; rewrite Hsd|].
    split; [by unfold form_count; rewrite Hfd|].
    unfold bind in Hstep. fold parsed in Hstep.
    rewrite (surjective_pairing parsed) in Hstep.
    destruct parsed.2 as [e|b]; (split; [exact Hstep|]);
      simpl; unfold bind at 1; by rewrite Hstep.
  - exact Hstep.
Qed.

(** Marking the deferred items marks their triples and nothing else. *)
Lemma mark_all_sent_spec deferred st :
  ∃ st', mark_all_sent deferred st = (st', inr tt) ∧
         sent_events st' = list_to_set (sent_key <$> deferred) ∪ sent_events st ∧
         requests st' = requests st ∧ errors st' = errors st ∧
         logged st' = logged st.
Proof.
  revert st. induction deferred as [|[[[s f] e] record] deferred IH]; intros st.
  { exists st. repeat split; try done. simpl. set_solver. }
  simpl mark_all_sent. unfold mark_sent. rewrite bind_modify.
  destruct (IH (set_sent_events (λ x, {[(s, f, e)]} ∪ x) st))
    as (st' & -> & Hs & Hr & He & Hl).
  exists st'. repeat split; try done.
  rewrite Hs. simpl. set_solver.
Qed.

(** C5: when blank events were deferred, they are merged by the aggregator
    and sent in one request with overwrite set.  If the request succeeds,
    the triple of every deferred item is marked; if it fails with a
    RedcapError, the message goes to the response parser and no triple is
    marked.  Two deferred items of subject S1 and event E1 make exactly one
    record of the request, which has every field of the second item with
    its value there and every other field of the first item with its value
    there.  In general the request has one record per distinct
    (subject, event) of the deferred items, a field given under an identity
    has in that identity's record the value of the last deferred item that
    gives it, and a record has no field that no deferred item gives. *)
Theorem send_blanks_bulk (st : state) :
  blanks st ≠ [] →
  let request := (create_redcap_records (blanks st), true) in
  let st1 := set_requests (λ l, l ++ [request]) st in
  requests (do_blanks st).1 = requests st ++ [request] ∧
  match send_data_to_redcap (requests st) request with
  | Sent _ =>
      sent_events (do_blanks st).1
        = list_to_set (sent_key <$> blanks st) ∪ sent_events st ∧
      errors (do_blanks st).1 = errors st
  | RedcapError msg =>
      do_blanks st
        = (handle_errors_in_redcap_xml_response msg;;; ret tt) st1 ∧
      sent_events (do_blanks st).1 = sent_events st
  | Raises e => do_blanks st = (st1, inl e)
  end ∧
  (∀ (f1 f2 : string) (m1 m2 : field_mapping),
     blanks st = [("S1", f1, "E1", m1); ("S1", f2, "E1", m2)] →
     request = ([dict_update (dict_update ∅ m1) m2], true) ∧
     ∃ record : field_mapping,
       request = ([record], true) ∧
       ∀ f, record !! f
            = match m2 !! f with Some v => Some v | None => m1 !! f end) ∧
  length request.1 = length (remove_dups (identity <$> blanks st)) ∧
  (∀ k earlier (m : field_mapping) later f v,
     mappings_of k (blanks st) = earlier ++ m :: later →
     m !! f = Some v →
     Forall (λ m' : field_mapping, m' !! f = None) later →
     ∃ record : field_mapping,
       record ∈ request.1 ∧
       records_by_subject_and_event (blanks st) !! k = Some record ∧
       record !! f = Some v) ∧
  (∀ (record : field_mapping) f v,
     record ∈ request.1 → record !! f = Some v →
     ∃ item : form_event, item ∈ blanks st ∧ item.2 !! f = Some v).
Proof.
  intros Hblanks request st1.
  assert (Hrun : do_blanks st
    = match send_data_to_redcap (requests st) request with
      | Sent response =>
          (mark_all_sent (blanks st);;;
           _ <- lift (getitem response "count");; ret tt) st1
      | RedcapError msg =>
          (handle_errors_in_redcap_xml_response msg;;; ret tt) st1
      | Raises e => (st1, inl e)
      end).
  { unfold send_blanks. rewrite bind_gets.
    destruct (blanks st) as [|item deferred] eqn:Hb; [done|].
    unfold upload_data, Throttle, client_call. unfold bind at 1.
    subst request st1.
    by destruct (send_data_to_redcap _ _). }
  rewrite Hrun. split; [|split; [|split; [|split; [|split]]]].
  - destruct (send_data_to_redcap (requests st) request) as [response|msg|e].
    + destruct (mark_all_sent_spec (blanks st) st1) as (st' & Hm & _ & Hr & _).
      rewrite (bind_run _ _ _ _ _ Hm). unfold bind, lift.
      by destruct (getitem response "count").
    + unfold bind.
      destruct (handle_errors_same_world msg st1) as (_ & Hr & _).
      by destruct (handle_errors_in_redcap_xml_response msg st1) as [st' [?|?]].
    + reflexivity.
  - destruct (send_data_to_redcap (requests st) request) as [response|msg|e].
    + destruct (mark_all_sent_spec (blanks st) st1) as (st' & Hm & Hs & _ & He & _).
      rewrite (bind_run _ _ _ _ _ Hm). unfold bind, lift.
      by destruct (getitem response "count").
    + split; [done|]. unfold bind.
      destruct (handle_errors_same_world msg st1) as (Hs & _).
      by destruct (handle_errors_in_redcap_xml_response msg st1) as [st' [?|?]].
    + reflexivity.
  - intros f1 f2 m1 m2 Hb. unfold request. rewrite Hb.
    rewrite create_redcap_records_same_identity. split; [done|].
    eexists. split; [reflexivity|]. intros f.
    rewrite !dict_update_lookup, lookup_empty.
    by destruct (m2 !! f), (m1 !! f).
  - apply create_redcap_records_length.
  - intros k earlier m later f v Hk Hm Hlater.
    pose proof (records_by_subject_and_event_lookup (blanks st) k) as Hrec.
    rewrite Hk in Hrec.
    assert (Hrec' : records_by_subject_and_event (blanks st) !! k
                    = Some (merged (earlier ++ m :: later)))
      by (by destruct earlier).
    exists (merged (earlier ++ m :: later)). split; [|split; [done|]].
    + apply create_redcap_records_elem. by exists k.
    + by apply foldl_dict_update_last.
  - intros record f v Hin Hf.
    apply create_redcap_records_elem in Hin as [k Hk].
    rewrite records_by_subject_and_event_lookup in Hk.
    destruct (mappings_of k (blanks st)) as [|m0 ms] eqn:Hms; [discriminate|].
    injection Hk as <-.
    destruct (foldl_dict_update_source _ _ _ _ Hf) as [He | (m & Hm & Hv)].
    { by rewrite lookup_empty in He. }
    rewrite <- Hms in Hm.
    destruct (mappings_of_elem _ _ _ Hm) as (item & Hitem & _ & <-).
    by exists item.
Qed.

End OrchestratorProperties.

(** ** The properties at work on sample runs *)

Lemma process_event_already_sent_witness :
  let st := Runs.in_form {[("S1", "cbc", "2_arm_1")]} in
  ∃ st',
    process_event "record_id" Samples.accepting 10 Runs.one_form false false
        "S1" "cbc" "Total_cbc_Forms" (Samples.with_data "2_arm_1") st
      = (st', inr Continue) ∧
    requests st' = [] ∧ sent_events st' = {[("S1", "cbc", "2_arm_1")]} ∧
    blanks st' = [] ∧ errors st' = [] ∧
    subject_count "S1" "Total_cbc_Forms" st' = Some 1 ∧
    form_count "Total_cbc_Forms" st' = Some 1 ∧
    process_events "record_id" Samples.accepting 10 Runs.one_form false false
        "S1" "cbc" "Total_cbc_Forms"
        [Samples.with_data "2_arm_1"; Samples.blank "3_arm_1"] st
      = process_events "record_id" Samples.accepting 10 Runs.one_form false
          false "S1" "cbc" "Total_cbc_Forms" [Samples.blank "3_arm_1"] st'.
Proof.
  intros st.
  apply (process_event_already_sent "record_id" Samples.accepting 10
           Runs.one_form false false "S1" "cbc" "Total_cbc_Forms"
           (Samples.with_data "2_arm_1") (Runs.json "2_arm_1" "13.5") true
           0 0 [Samples.blank "3_arm_1"] st).
  - reflexivity.
  - vm_compute; reflexivity.
  - change (("S1", "cbc", "2_arm_1")
            ∈ ({[("S1", "cbc", "2_arm_1")]} : gset (string * string * string))).
    apply elem_of_singleton. reflexivity.
  - vm_compute; reflexivity.
  - vm_compute; reflexivity.
Defined.

Lemma process_events_skip_blanks_witness :
  let st := Runs.in_form ∅ in
  process_event "record_id" Samples.accepting 10 Runs.one_form true false
      "S1" "cbc" "Total_cbc_Forms" (Samples.blank "1_arm_1") st
    = (st, inr Break) ∧
  process_events "record_id" Samples.accepting 10 Runs.one_form true false
      "S1" "cbc" "Total_cbc_Forms" Runs.three_events st
    = (st, inr tt).
Proof.
  intros st.
  apply (process_events_skip_blanks "record_id" Samples.accepting 10
           Runs.one_form true false "S1" "cbc" "Total_cbc_Forms"
           (Samples.blank "1_arm_1") (Runs.json "1_arm_1" "")
           [Samples.with_data "2_arm_1"; Samples.blank "3_arm_1"] st).
  - reflexivity.
  - reflexivity.
  - vm_compute; reflexivity.
  - change (("S1", "cbc", "1_arm_1") ∉ (∅ : gset (string * string * string))).
    apply not_elem_of_empty.
Defined.

Lemma process_event_normal_send_witness :
  let st := Runs.in_form ∅ in
  let event := Samples.with_data "2_arm_1" in
  let request := ([Runs.json "2_arm_1" "13.5"], true) in
  let parsed :=
    handle_errors_in_redcap_xml_response Runs.rejection
      (set_requests (λ l, l ++ [request]) st) in
  requests parsed.1 = [request] ∧
  sent_events parsed.1 = ∅ ∧
  subject_count "S1" "Total_cbc_Forms" parsed.1 = Some 0 ∧
  form_count "Total_cbc_Forms" parsed.1 = Some 0 ∧
  process_event "record_id" (Samples.rejecting Runs.rejection) 10
      Runs.one_form false false "S1" "cbc" "Total_cbc_Forms" event st
    = (parsed.1, inr Continue) ∧
  process_events "record_id" (Samples.rejecting Runs.rejection) 10
      Runs.one_form false false "S1" "cbc" "Total_cbc_Forms"
      [event; Samples.blank "3_arm_1"] st
    = process_events "record_id" (Samples.rejecting Runs.rejection) 10
        Runs.one_form false false "S1" "cbc" "Total_cbc_Forms"
        [Samples.blank "3_arm_1"] parsed.1.
Proof.
  intros st event request parsed.
  apply (process_event_normal_send "record_id"
           (Samples.rejecting Runs.rejection) 10 Runs.one_form false false
           "S1" "cbc" "Total_cbc_Forms" event (Runs.json "2_arm_1" "13.5") true
           0 0 [Samples.blank "3_arm_1"] st).
  - reflexivity.
  - vm_compute; reflexivity.
  - change (("S1", "cbc", "2_arm_1") ∉ (∅ : gset (string * string * string))).
    apply not_elem_of_empty.
  - discriminate.
  - vm_compute; reflexivity.
  - vm_compute; reflexivity.
Defined.

(** C1 as stated fails: REDCap rejects the first of two events with a message
    that is no Python literal; the parser raises ValueError, the run ends
    with it, and the second event is never sent. *)
Lemma normal_send_error_can_abort :
  let document :=
    Samples.study
      [Samples.person "S1"
         [Samples.form "cbc" [Samples.with_data "1_arm_1";
                              Samples.with_data "2_arm_1"]]] in
  let remote := Samples.rejecting (NotLiteral "Connection refused") in
  (process_event "record_id" remote 10 document false false
     "S1" "cbc" "Total_cbc_Forms" (Samples.with_data "1_arm_1")
     (Runs.in_form ∅)).2 = inl ValueError ∧
  (generate_output "record_id" remote 10 document false false Samples.st0).2
    = inl ValueError ∧
  requests
    (generate_output "record_id" remote 10 document false false Samples.st0).1
    = [([Runs.json "1_arm_1" "13.5"], true)].
Proof. repeat split; vm_compute; reflexivity. Qed.

Lemma send_blanks_bulk_witness :
  let m1 : field_mapping := {[Some "record_id" := "S1"; Some "hgb" := ""]} in
  let m2 : field_mapping := {[Some "record_id" := "S1"; Some "na" := ""]} in
  let st := set_blanks (λ _, [("S1", "cbc", "E1", m1); ("S1", "chem", "E1", m2)])
              Samples.st0 in
  let record : field_mapping :=
    {[Some "record_id" := "S1"; Some "hgb" := ""; Some "na" := ""]} in
  requests (send_blanks Samples.accepting 10 st).1 = [([record], true)] ∧
  sent_events (send_blanks Samples.accepting 10 st).1
    = list_to_set [("S1", "cbc", "E1"); ("S1", "chem", "E1")] ∪ ∅ ∧
  errors (send_blanks Samples.accepting 10 st).1 = [] ∧
  (∃ merged_record : field_mapping,
     (create_redcap_records (blanks st), true) = ([merged_record], true) ∧
     ∀ f, merged_record !! f
          = match m2 !! f with Some v => Some v | None => m1 !! f end) ∧
  length (create_redcap_records (blanks st)) = 1%nat.
Proof.
  intros m1 m2 st record.
  destruct (send_blanks_bulk Samples.accepting 10 st)
    as (Hrequests & [Hsent Herrors] & Htwo & Hlength & _ & _);
    [discriminate|].
  destruct (Htwo "cbc" "chem" m1 m2 eq_refl) as [_ Hrecord].
  split; [|split; [exact Hsent|split; [exact Herrors|split;
    [exact Hrecord|exact Hlength]]]].
  rewrite Hrequests. vm_compute. reflexivity.
Defined.

(** One subject, one form, an event with data and a blank one, nothing sent
    before, default options: two requests, both counters at 1, no error. *)
Example generate_output_end_to_end :
  let document :=
    Samples.study
      [Samples.person "S1"
         [Samples.form "cbc" [Samples.with_data "1_arm_1";
                              Samples.blank "2_arm_1"]]] in
  let run :=
    generate_output "record_id" Samples.accepting 10 document false false
      Samples.st0 in
  requests run.1 = [([Runs.json "1_arm_1" "13.5"], true);
                    ([Runs.json "2_arm_1" ""], true)] ∧
  sent_events run.1 = {[("S1", "cbc", "1_arm_1"); ("S1", "cbc", "2_arm_1")]} ∧
  run.2 = inr (mkReportData [] 1 {["Total_cbc_Forms" := 1]}
                 {["S1" := mkSubject (Some "L") {["Total_cbc_Forms" := 1]}]}).
Proof. repeat split; vm_compute; reflexivity. Qed.

(** The same subject with the events blank, with data, blank, and a second
    form, under skip_blanks: the first form is left at its first event and
    the second form is processed. *)
Example generate_output_skip_blanks :
  let document :=
    Samples.study
      [Samples.person "S1"
         [Samples.form "cbc" Runs.three_events;
          Samples.form "chem" [Samples.with_data "1_arm_1"]]] in
  let run :=
    generate_output "record_id" Samples.accepting 10 document true false
      Samples.st0 in
  requests run.1 = [([Runs.json "1_arm_1" "13.5"], true)] ∧
  sent_events run.1 = {[("S1", "chem", "1_arm_1")]} ∧
  run.2 = inr (mkReportData [] 1
                 {["Total_cbc_Forms" := 0; "Total_chem_Forms" := 1]}
                 {["S1" := mkSubject (Some "L")
                             {["Total_cbc_Forms" := 0;
                               "Total_chem_Forms" := 1]}]}).
Proof. repeat split; vm_compute; reflexivity. Qed.

(** Two forms of subject S1 with a blank event E1 each, under
    bulk_send_blanks: one request at the end of the run, with one record,
    and both triples marked when it succeeds, none when it is rejected. *)
Example generate_output_bulk_blanks :
  let document :=
    Samples.study
      [Samples.person "S1"
         [Samples.form "cbc" [Samples.blank "E1"];
          Samples.form "chem" [Samples.blank "E1"]]] in
  let accepted :=
    generate_output "record_id" Samples.accepting 10 document false true
      Samples.st0 in
  let rejected :=
    generate_output "record_id" (Samples.rejecting Runs.rejection) 10 document
      false true Samples.st0 in
  requests accepted.1 = [([Runs.json "E1" ""], true)] ∧
  sent_events accepted.1 = {[("S1", "cbc", "E1"); ("S1", "chem", "E1")]} ∧
  requests rejected.1 = [([Runs.json "E1" ""], true)] ∧
  sent_events rejected.1 = ∅ ∧
  errors rejected.1
    = [error_string "S1" "hgb" "13.5" "out of range"].
Proof. repeat split; vm_compute; reflexivity. Qed.

(** The aggregator on three items, two of them under one identity. *)
Lemma create_redcap_records_merges_witness :
  let A : field_mapping := {[Some "hgb" := "1"]} in
  let B : field_mapping := {[Some "hgb" := "2"; Some "na" := "140"]} in
  let import_data :=
    [("S1", "cbc", "E1", A); ("S2", "cbc", "E1", A); ("S1", "chem", "E1", B)] in
  length (create_redcap_records import_data) = 2%nat ∧
  merged (mappings_of ("S1", "E1") import_data) !! Some "hgb" = Some "2".
Proof.
  intros A B import_data.
  destruct (create_redcap_records_merges import_data)
    as (Hlength & _ & Hlast & _).
  split; [exact Hlength|].
  apply (Hlast ("S1", "E1") [A] B [] (Some "hgb") "2");
    [reflexivity | reflexivity | constructor].
Defined.


(** The parser on {"error": "rejected"}. *)
Lemma handle_errors_one_record_witness :
  let payload := Literal (PDict [(PStr "error", PStr "rejected")]) in
  (handle_errors_in_redcap_xml_response payload Samples.st0).2 = inr true ∧
  errors (handle_errors_in_redcap_xml_response payload Samples.st0).1 = [].
Proof.
  intros payload.
  destruct (handle_errors_one_record PNone "" "" "" "" Samples.st0)
    as (_ & _ & _ & _ & _ & _ & Hmissing).
  apply (Hmissing [(PStr "error", PStr "rejected")]); reflexivity.
Defined.

(** * Further properties of the module *)

(** ** The event transformer: what it accepts and what it returns *)

Lemma check_field_names_texts names :
  check_field_names names = inr tt →
  ∀ name, name ∈ names → text name ≠ None.
Proof.
  intros Hok name Hin Hnone.
  rewrite check_field_names_inl in Hok by eauto. discriminate.
Qed.

Lemma check_field_names_exception names e :
  check_field_names names = inl e →
  e = Exception "Expected non-blank element event/field/name".
Proof.
  induction names as [|name names IH]; simpl; [discriminate|].
  destruct (text name); [exact IH | congruence].
Qed.

(** X1: the transformer accepts an event exactly when the event has a name
    element with a non-empty text and every event/field/name element of the
    document has a text; the seed plays no part.  When it rejects, it raises
    Exception with one of its two messages. *)
Theorem create_import_data_json_accepts_iff document seed event :
  ((∃ r, create_import_data_json document seed event = inr r) ↔
   (∃ name_text,
      (find "name" event ≫= text) = Some name_text ∧ name_text ≠ "" ∧
      ∀ name, name ∈ xpath_event_field_name document → text name ≠ None)) ∧
  (∀ e, create_import_data_json document seed event = inl e →
        e = Exception "Expected non-blank element event/name" ∨
        e = Exception "Expected non-blank element event/field/name").
Proof.
  split; [split|].
  - intros [r Hr].
    destruct (create_import_data_json_inr _ _ _ _ Hr) as (s & Hs & Hne & Hok & _).
    exists s. split; [done|]. split; [done|].
    by apply check_field_names_texts.
  - intros (s & Hs & Hne & Hall).
    by eapply create_import_data_json_returns.
  - intros e. unfold create_import_data_json.
    destruct (find "name" event) as [n|]; [|intros [= <-]; by left].
    destruct (text n) as [s|]; [|intros [= <-]; by left].
    destruct (truthy s); [|intros [= <-]; by left].
    destruct (check_field_names _) as [e'|[]] eqn:Hcheck; [|discriminate].
    intros [= <-]. right. by eapply check_field_names_exception.
Qed.

(** The name under which a field is stored, and the mapping after the loop
    over the fields. *)
Lemma foldl_add_field_mapping fields acc :
  (foldl add_field acc fields).1
  = foldl (λ d f, <[findtext "name" f := field_value f]> d) acc.1 fields.
Proof.
  revert acc. induction fields as [|f fields IH]; intros [d b]; [done|].
  simpl foldl. by rewrite IH.
Qed.

Lemma foldl_insert_fields_other (fields : list Element) (d : field_mapping) k :
  (∀ f, f ∈ fields → findtext "name" f ≠ k) →
  foldl (λ d f, <[findtext "name" f := field_value f]> d) d fields !! k
  = d !! k.
Proof.
  revert d. induction fields as [|f fields IH]; intros d Hk; [done|].
  simpl. rewrite IH by (intros f' Hf'; apply Hk; by right).
  apply lookup_insert_ne, Hk. by left.
Qed.

(** X2: in the mapping the transformer returns, a key that no field of the
    event is named after has the value of the seed, or the event's name
    under 'redcap_event_name'; and the key a field is named after has the
    value of that field, unless a later field of the event has the same
    name. *)
Theorem create_import_data_json_lookup document seed event json flag :
  create_import_data_json document seed event = inr (json, flag) →
  ∃ name_text,
    (find "name" event ≫= text) = Some name_text ∧
    (∀ k, (∀ f, f ∈ xpath_child "field" event → findtext "name" f ≠ k) →
          json !! k = <[Some "redcap_event_name" := name_text]> seed !! k) ∧
    (∀ before f after,
       xpath_child "field" event = before ++ f :: after →
       (∀ f', f' ∈ after → findtext "name" f' ≠ findtext "name" f) →
       json !! findtext "name" f = Some (field_value f)).
Proof.
  intros Hrun.
  destruct (create_import_data_json_inr _ _ _ _ Hrun) as (s & Hs & _ & _ & Hr).
  apply (f_equal fst) in Hr. rewrite foldl_add_field_mapping in Hr.
  simpl in Hr. subst json.
  exists s. split; [done|]. split.
  - intros k Hk. by apply foldl_insert_fields_other.
  - intros before f after -> Hafter.
    rewrite foldl_app. simpl.
    rewrite foldl_insert_fields_other by done. apply lookup_insert_eq.
Qed.

Lemma create_import_data_json_lookup_witness :
  let event :=
    Samples.event "1_arm_1"
      [Samples.field "hgb" (Some "12"); Samples.field "na" (Some "140");
       Samples.field "hgb" (Some "13")] in
  ∃ json,
    create_import_data_json event {[Some "record_id" := "S1"]} event
      = inr (json, true) ∧
    json !! Some "record_id" = Some "S1" ∧
    json !! Some "redcap_event_name" = Some "1_arm_1" ∧
    json !! Some "hgb" = Some "13" ∧ json !! Some "na" = Some "140".
Proof.
  intros event.
  destruct (create_import_data_json event {[Some "record_id" := "S1"]} event)
    as [e|[json flag]] eqn:Hrun; [by vm_compute in Hrun|].
  assert (flag = true) as -> by (vm_compute in Hrun; congruence).
  exists json. split; [reflexivity|].
  destruct (create_import_data_json_lookup _ _ _ _ _ Hrun)
    as (s & Hs & Hother & Hfield).
  assert (s = "1_arm_1") as -> by (vm_compute in Hs; congruence).
  repeat split.
  - rewrite (Hother (Some "record_id")); [reflexivity|].
    intros f Hf. vm_compute in Hf.
    repeat (apply elem_of_cons in Hf as [-> | Hf]); [done..|by inversion Hf].
  - rewrite (Hother (Some "redcap_event_name")); [reflexivity|].
    intros f Hf. vm_compute in Hf.
    repeat (apply elem_of_cons in Hf as [-> | Hf]); [done..|by inversion Hf].
  - apply (Hfield [Samples.field "hgb" (Some "12"); Samples.field "na" (Some "140")]
             (Samples.field "hgb" (Some "13")) []); [reflexivity|].
    intros f' Hf'. inversion Hf'.
  - apply (Hfield [Samples.field "hgb" (Some "12")]
             (Samples.field "na" (Some "140"))
             [Samples.field "hgb" (Some "13")]); [reflexivity|].
    intros f' Hf'. apply list_elem_of_singleton in Hf' as ->. done.
Defined.

(** ** The record aggregator: what the result depends on *)

(** X3: the records depend only on the sequence of mappings given under each
    identity: inputs that agree on these sequences give the same dictionary
    of records, and so the same records up to their order, which the code
    leaves to the dictionary; neither the form names nor the interleaving of
    different identities matter. *)
Theorem create_redcap_records_grouping (data1 data2 : list form_event) :
  (∀ k, mappings_of k data1 = mappings_of k data2) →
  records_by_subject_and_event data1 = records_by_subject_and_event data2 ∧
  create_redcap_records data1 ≡ₚ create_redcap_records data2 ∧
  (∀ m : field_mapping,
     m ∈ create_redcap_records data1 ↔ m ∈ create_redcap_records data2).
Proof.
  intros Hsame.
  assert (Heq : records_by_subject_and_event data1
                = records_by_subject_and_event data2).
  { apply map_eq. intros k.
    by rewrite !records_by_subject_and_event_lookup, Hsame. }
  split; [exact Heq|]. split.
  - unfold create_redcap_records. by rewrite Heq.
  - intros m. rewrite !create_redcap_records_elem. by rewrite Heq.
Qed.

Lemma create_redcap_records_grouping_witness :
  let A : field_mapping := {[Some "hgb" := ""]} in
  let B : field_mapping := {[Some "na" := ""]} in
  let data1 := [("S1", "cbc", "E1", A); ("S2", "cbc", "E1", B)] in
  let data2 := [("S2", "chem", "E1", B); ("S1", "other", "E1", A)] in
  records_by_subject_and_event data1 = records_by_subject_and_event data2 ∧
  create_redcap_records data1 ≡ₚ create_redcap_records data2 ∧
  (∀ m : field_mapping,
     m ∈ create_redcap_records data1 ↔ m ∈ create_redcap_records data2).
Proof.
  intros A B data1 data2.
  apply (create_redcap_records_grouping data1 data2).
  intros [s e]. unfold data1, data2. rewrite !mappings_of_cons. simpl.
  repeat case_decide; simplify_eq; reflexivity.
Defined.

(** ** The response parser: what it appends *)

(** X4: on a payload with the 'error' marker whose 'records' is a list of
    well-formed entries, the parser returns True and appends one error
    string per entry, in the order of the list, each also logged at INFO. *)
Theorem handle_errors_all_records items entries strs (st : state) :
  contains "error" (PDict items) = inr true →
  lookup_str "records" items = Some (PList entries) →
  Forall2 (λ r s, ∃ R F V Msg, well_formed_entry r R F V Msg ∧
                               s = error_string R F V Msg) entries strs →
  handle_errors_in_redcap_xml_response (Literal (PDict items)) st
  = (recorded strs
       (set_logged (λ l, l ++ [(DEBUG, "handling response from the REDCap")]) st),
     inr true) ∧
  errors (handle_errors_in_redcap_xml_response (Literal (PDict items)) st).1
  = errors st ++ strs ∧
  length strs = length entries.
Proof.
  intros Herr Hrec Hall.
  assert (Hall' : Forall2 (λ r s, error_string_of r = inr s) entries strs).
  { eapply Forall2_impl; [exact Hall|].
    intros r s (R & F & V & Msg & Hwf & ->).
    by apply error_string_of_well_formed. }
  rewrite handle_errors_literal, (parse_response_records _ _ _ Herr Hrec).
  rewrite (record_errors_all _ _ _ Hall').
  repeat split. symmetry. by eapply Forall2_length.
Qed.

Lemma handle_errors_all_records_witness :
  let entry (R : string) :=
    PDict [(PStr "record", PStr R); (PStr "field_name", PStr "hgb");
           (PStr "value", PStr "x"); (PStr "message", PStr "not a number")] in
  let items := [(PStr "error", PStr "rejected");
                (PStr "records", PList [entry "S1"; entry "S2"])] in
  errors (handle_errors_in_redcap_xml_response (Literal (PDict items))
            Samples.st0).1
  = [error_string "S1" "hgb" "x" "not a number";
     error_string "S2" "hgb" "x" "not a number"].
Proof.
  intros entry items.
  apply (handle_errors_all_records items [entry "S1"; entry "S2"]
           [error_string "S1" "hgb" "x" "not a number";
            error_string "S2" "hgb" "x" "not a number"] Samples.st0).
  - reflexivity.
  - reflexivity.
  - repeat constructor.
    + exists "S1", "hgb", "x", "not a number". split; [|reflexivity].
      eexists. repeat split.
    + exists "S2", "hgb", "x", "not a number". split; [|reflexivity].
      eexists. repeat split.
Defined.

Lemma record_errors_appends entries st :
  ∃ more,
    errors (record_errors entries st).1 = errors st ++ more ∧
    logged (record_errors entries st).1 = logged st ++ ((INFO,.) <$> more) ∧
    (length more ≤ length entries)%nat.
Proof.
  revert st. induction entries as [|r entries IH]; intros st.
  { exists []. simpl. by rewrite !app_nil_r. }
  destruct (error_string_of r) as [e|s] eqn:Hr.
  { rewrite (record_errors_raise _ _ _ _ Hr).
    exists []. simpl. rewrite !app_nil_r. repeat split. lia. }
  change (r :: entries) with ([r] ++ entries).
  rewrite (record_errors_app [r] [s] entries st) by (by repeat constructor).
  destruct (IH (recorded [s] st)) as (more & He & Hl & Hlen).
  exists (s :: more). rewrite He, Hl. simpl.
  rewrite <- !app_assoc. repeat split. lia.
Qed.

Lemma handle_errors_only_appends_errors msg st :
  ∃ more,
    errors (handle_errors_in_redcap_xml_response msg st).1 = errors st ++ more.
Proof.
  destruct msg as [s|v]; [exists []; simpl; by rewrite app_nil_r|].
  rewrite handle_errors_literal.
  set (st1 := set_logged _ st).
  assert (Hparse : ∃ more, errors (parse_response v st1).1 = errors st ++ more).
  { unfold parse_response, bind, lift.
    destruct (contains "error" v) as [e|[]];
      [exists []; simpl; by rewrite app_nil_r | |
       exists []; simpl; by rewrite app_nil_r].
    destruct (getitem v "records") as [e|records];
      [exists []; simpl; by rewrite app_nil_r|].
    destruct (iterate records) as [e|entries];
      [exists []; simpl; by rewrite app_nil_r|].
    destruct (record_errors_appends entries st1) as (more & He & _).
    by exists more. }
  destruct Hparse as [more He]. exists more.
  by destruct (parse_response v st1) as [st2 [[]|[]]].
Qed.

(** X5: whatever the message, and whether the parser returns or raises, it
    only appends to the errors of the report and to the log, at most one
    error per entry of 'records', and changes nothing else: no request is
    made, no triple is marked, no counter is touched. *)
Theorem handle_errors_only_appends (msg : message) (st : state) :
  let st' := (handle_errors_in_redcap_xml_response msg st).1 in
  same_world st st' ∧
  (∃ more, errors st' = errors st ++ more ∧
           ∀ items entries, msg = Literal (PDict items) →
             lookup_str "records" items = Some (PList entries) →
             (length more ≤ length entries)%nat) ∧
  (∃ lines, logged st' = logged st ++ lines).
Proof.
  intros st'. split; [apply handle_errors_same_world|].
  subst st'. destruct msg as [s|v].
  { split; exists []; simpl; rewrite ?app_nil_r; [split; [done|]|done].
    intros; discriminate. }
  rewrite handle_errors_literal.
  set (st1 := set_logged _ st).
  assert (Hparse : ∃ more,
    errors (parse_response v st1).1 = errors st ++ more ∧
    (∃ lines, logged (parse_response v st1).1 = logged st ++ lines) ∧
    ∀ items entries, v = PDict items →
      lookup_str "records" items = Some (PList entries) →
      (length more ≤ length entries)%nat).
  { unfold parse_response, bind, lift.
    destruct (contains "error" v) as [e|[]] eqn:Hc.
    - exists []. simpl. rewrite app_nil_r. split; [done|].
      split; [eauto|]. intros; simpl; lia.
    - destruct (getitem v "records") as [e|records] eqn:Hg.
      { exists []. simpl. rewrite app_nil_r. split; [done|].
        split; [eauto|]. intros; simpl; lia. }
      destruct (iterate records) as [e|entries] eqn:Hi.
      { exists []. simpl. rewrite app_nil_r. split; [done|].
        split; [eauto|]. intros; simpl; lia. }
      destruct (record_errors_appends entries st1) as (more & He & Hl & Hlen).
      exists more. split; [exact He|]. split.
      + rewrite Hl. simpl. rewrite <- app_assoc. eauto.
      + intros items entries' -> Hrec. simpl in Hg. rewrite Hrec in Hg.
        injection Hg as <-. simpl in Hi. by injection Hi as <-.
    - exists []. simpl. rewrite app_nil_r. split; [done|].
      split; [|intros; simpl; lia]. rewrite <- app_assoc. eauto. }
  destruct Hparse as (more & He & [lines Hl] & Hlen).
  assert (Hlen' : ∀ items entries, Literal v = Literal (PDict items) →
            lookup_str "records" items = Some (PList entries) →
            (length more ≤ length entries)%nat).
  { intros items entries [= ->]. by apply Hlen. }
  destruct (parse_response v st1) as [st2 [[]|[]]]; simpl in *;
    (split; [by exists more|]);
    rewrite ?Hl, <- ?app_assoc; eauto.
Qed.

(** ** The orchestrator: what a step and a run do to the traffic *)

Lemma same_traffic_refl st : same_traffic st st.
Proof. by repeat split. Qed.

Lemma same_traffic_trans st1 st2 st3 :
  same_traffic st1 st2 → same_traffic st2 st3 → same_traffic st1 st3.
Proof. unfold same_traffic. intuition congruence. Qed.

Lemma count_subject_same_traffic study_id_key form_key st :
  same_traffic st (count_subject study_id_key form_key st).1.
Proof.
  unfold count_subject. rewrite bind_gets.
  destruct (subject_details st !! study_id_key) as [subj|]; [|by repeat split].
  destruct (form_counts subj !! form_key); by repeat split.
Qed.

Lemma count_form_same_traffic form_key st :
  same_traffic st (count_form form_key st).1.
Proof.
  unfold count_form. rewrite bind_gets.
  destruct (form_details st !! form_key); by repeat split.
Qed.

(** Counting touches the counters only, also when it raises. *)
Lemma count_if_same_traffic contains_data study_id_key form_key st :
  same_traffic st (count_if contains_data study_id_key form_key st).1.
Proof.
  destruct contains_data; [|apply same_traffic_refl].
  unfold count_if, bind.
  pose proof (count_subject_same_traffic study_id_key form_key st) as H1.
  destruct (count_subject study_id_key form_key st) as [st1 [e|[]]]; [done|].
  eapply same_traffic_trans; [exact H1|apply count_form_same_traffic].
Qed.

Lemma bind_state {A B} (m : M A) (k : A → M B) st :
  (bind m k st).1
  = match (m st).2 with
    | inr a => (k a (m st).1).1
    | inl _ => (m st).1
    end.
Proof. unfold bind. by destruct (m st) as [st' [e|a]]. Qed.

Section EventEffect.

Variable def_field : string.
Variable send_data_to_redcap : list request → request → send_result.
Variable rate_limit : Z.
Variable root : Element.
Variables skip_blanks bulk_send_blanks : bool.

Local Abbreviation do_event :=
  (process_event def_field send_data_to_redcap rate_limit root
                 skip_blanks bulk_send_blanks).

(** The assert of line 173 and the exceptions of the transformer leave the
    state as it was. *)
Lemma process_event_unnamed study_id_key form_name form_key event st :
  truthy (name_of event) = false →
  do_event study_id_key form_name form_key event st
  = (st, inl (AssertionError "Missing name for form event")).
Proof.
  intros Hname. unfold process_event. fold (name_of event). by rewrite Hname.
Qed.

Lemma process_event_rejected study_id_key form_name form_key event e st :
  truthy (name_of event) = true →
  create_import_data_json root {[Some def_field := study_id_key]} event = inl e →
  do_event study_id_key form_name form_key event st = (st, inl e).
Proof.
  intros Hname Hjson. unfold process_event. fold (name_of event).
  by rewrite Hname, Hjson.
Qed.

(** Every pass of the loop over the events has one of the three effects,
    and leaves the count of persons alone. *)
Lemma process_event_effect study_id_key form_name form_key event st :
  let st' := (do_event study_id_key form_name form_key event st).1 in
  event_effect skip_blanks bulk_send_blanks
    (study_id_key, form_name, name_of event) st st' ∧
  person_count st' = person_count st.
Proof.
  intros st'. subst st'.
  destruct (truthy (name_of event)) eqn:Hname.
  2:{ rewrite process_event_unnamed by done. split; [by apply effect_quiet|done]. }
  destruct (create_import_data_json root {[Some def_field := study_id_key]} event)
    as [e|[json contains_data]] eqn:Hjson.
  { rewrite (process_event_rejected _ _ _ _ _ _ Hname Hjson).
    split; [by apply effect_quiet|done]. }
  rewrite (process_event_accepted _ _ _ _ _ _ _ _ _ _ _ _ _ Hname Hjson).
  case_bool_decide as Hsent.
  { rewrite bind_state.
    destruct (count_if_same_traffic contains_data study_id_key form_key st)
      as (Hs & Hr & _ & He & Hp & Hb & _).
    destruct (count_if _ _ _ st).2; (split; [by apply effect_quiet|done]). }
  destruct (negb contains_data && skip_blanks) eqn:Hskip;
    [split; [by apply effect_quiet|done]|].
  destruct (negb contains_data && bulk_send_blanks) eqn:Hbulk.
  { apply andb_true_iff in Hbulk as [Hblank ->].
    rewrite Hblank in Hskip. simpl in Hskip. subst skip_blanks.
    split; [by eapply effect_deferred|done]. }
  cbv zeta.
  destruct (send_data_to_redcap (requests st) ([json], true)) as [response|msg|e].
  - rewrite bind_state.
    set (st2 := set_sent_events _ _).
    destruct (count_if_same_traffic contains_data study_id_key form_key st2)
      as (Hs & Hr & _ & He & Hp & Hb & _).
    destruct (count_if _ _ _ st2).2;
      (split; [|exact Hp]);
      (eapply effect_sent;
         [exact Hsent | exact Hr | exact Hb | left; split; [exact Hs|exact He]]).
  - rewrite bind_state.
    set (st1 := set_requests _ st).
    destruct (handle_errors_same_world msg st1) as (Hs & Hr & _ & _ & Hp & Hb & _).
    destruct (handle_errors_only_appends_errors msg st1) as [more Hmore].
    destruct (handle_errors_in_redcap_xml_response msg st1).2;
      (split; [|exact Hp]);
      (eapply effect_sent;
         [exact Hsent | exact Hr | exact Hb
         | right; split; [exact Hs | exists more; exact Hmore]]).
  - split; [|reflexivity].
    eapply effect_sent; [exact Hsent | reflexivity | reflexivity | right].
    split; [reflexivity|]. exists []. simpl. by rewrite app_nil_r.
Qed.

End EventEffect.

(** ** Invariants of a run *)

Section RunInvariant.

Variable def_field : string.
Variable send_data_to_redcap : list request → request → send_result.
Variable rate_limit : Z.
Variable root : Element.
Variables skip_blanks bulk_send_blanks : bool.

Local Abbreviation do_event :=
  (process_event def_field send_data_to_redcap rate_limit root
                 skip_blanks bulk_send_blanks).
Local Abbreviation do_events :=
  (process_events def_field send_data_to_redcap rate_limit root
                  skip_blanks bulk_send_blanks).
Local Abbreviation do_form :=
  (process_form def_field send_data_to_redcap rate_limit root
                skip_blanks bulk_send_blanks).
Local Abbreviation do_forms :=
  (process_forms def_field send_data_to_redcap rate_limit root
                 skip_blanks bulk_send_blanks).
Local Abbreviation do_person :=
  (process_person def_field send_data_to_redcap rate_limit root
                  skip_blanks bulk_send_blanks).
Local Abbreviation do_persons :=
  (process_persons def_field send_data_to_redcap rate_limit root
                   skip_blanks bulk_send_blanks).

(** A property of the state that the assignment of [study_id_key] and the
    initialisation of the counters keep. *)
Variable Inv : state → Prop.
Hypothesis Inv_key : ∀ f st, Inv st → Inv (set_study_id_key f st).
Hypothesis Inv_init : ∀ lab study_id_key form_key st,
  Inv st → Inv (init_counters lab study_id_key form_key st).1.

(** The step on an event keeps the property. *)
Local Abbreviation keeps study_id_key form_name event :=
  (∀ form_key st, Inv st →
     Inv (do_event study_id_key form_name form_key event st).1).

Lemma process_events_inv study_id_key form_name form_key events st :
  (∀ event, event ∈ events → keeps study_id_key form_name event) →
  Inv st → Inv (do_events study_id_key form_name form_key events st).1.
Proof.
  revert st. induction events as [|event events IH]; intros st Hkeeps Hst.
  { exact Hst. }
  simpl. rewrite bind_state.
  assert (Hstep : Inv (do_event study_id_key form_name form_key event st).1)
    by (apply Hkeeps; [by left|done]).
  destruct (do_event study_id_key form_name form_key event st).2 as [e|[]];
    [done| |done].
  apply IH; [|done]. intros ev Hev. apply Hkeeps. by right.
Qed.

Lemma init_counters_locals lab study_id_key form_key st :
  init_counters lab study_id_key form_key st
  = ((init_counters lab study_id_key form_key st).1, inr tt) ∧
  locals_only st (init_counters lab study_id_key form_key st).1.
Proof. unfold init_counters. rewrite !bind_modify. by repeat split. Qed.

Lemma process_form_inv person study_id form st :
  (∀ study_id_key name form_name event,
     text study_id = Some study_id_key →
     head (xpath_child "name" form) = Some name →
     text name = Some form_name →
     event ∈ xpath_child "event" form →
     keeps study_id_key form_name event) →
  Inv st → Inv (do_form person study_id form st).1.
Proof.
  intros Hkeeps Hst. unfold process_form.
  destruct (xpath_child "name" form) as [|name names] eqn:Hname; [done|].
  destruct (text name) as [form_name|] eqn:Hform; [|done].
  destruct (text study_id) as [key|] eqn:Hkey; [|done].
  rewrite bind_modify.
  set (st1 := set_study_id_key _ st).
  destruct (init_counters_locals (get "lab_id" person) key
              ("Total_" +:+ form_name +:+ "_Forms") st1) as [Hinit Hlocals].
  rewrite (bind_run _ _ _ _ _ Hinit).
  apply process_events_inv.
  - intros event Hevent. by eapply Hkeeps.
  - by apply Inv_init, Inv_key.
Qed.

Lemma process_forms_inv person study_id forms st :
  (∀ form study_id_key name form_name event,
     form ∈ forms →
     text study_id = Some study_id_key →
     head (xpath_child "name" form) = Some name →
     text name = Some form_name →
     event ∈ xpath_child "event" form →
     keeps study_id_key form_name event) →
  Inv st → Inv (do_forms person study_id forms st).1.
Proof.
  revert st. induction forms as [|form forms IH]; intros st Hkeeps Hst.
  { exact Hst. }
  simpl. rewrite bind_state.
  assert (Hform : Inv (do_form person study_id form st).1).
  { apply process_form_inv; [|done].
    intros key name form_name event. apply Hkeeps. by left. }
  destruct (do_form person study_id form st).2 as [e|[]]; [done|].
  apply IH; [|done].
  intros f key name form_name event Hf. apply Hkeeps. by right.
Qed.

(** The count of persons does not bear on the property either. *)
Hypothesis Inv_person_count : ∀ f st, Inv st → Inv (set_person_count f st).

Lemma process_person_inv person st :
  (∀ study_id form study_id_key name form_name event,
     head (xpath_child "study_id" person) = Some study_id →
     form ∈ forms_of person →
     text study_id = Some study_id_key →
     head (xpath_child "name" form) = Some name →
     text name = Some form_name →
     event ∈ xpath_child "event" form →
     keeps study_id_key form_name event) →
  Inv st → Inv (do_person person st).1.
Proof.
  intros Hkeeps Hst. unfold process_person. rewrite bind_modify.
  destruct (head (xpath_child "study_id" person)) as [study_id|] eqn:Hid;
    [|by apply Inv_person_count].
  rewrite bind_state.
  assert (Hforms : Inv (do_forms person study_id (forms_of person)
                          (set_person_count (λ n, n + 1) st)).1).
  { apply process_forms_inv; [|by apply Inv_person_count].
    intros form key name form_name event. by apply Hkeeps. }
  fold (forms_of person).
  destruct (do_forms person study_id (forms_of person) _).2 as [e|[]]; [done|].
  rewrite bind_gets.
  by destruct (study_id_key _).
Qed.

(** A property kept by the step on every event the run visits is kept by
    the loop over the persons of the document. *)
Lemma process_persons_inv st :
  (∀ study_id_key form_name event,
     visited root study_id_key form_name event →
     keeps study_id_key form_name event) →
  Inv st → Inv (do_persons (xpath_descendant "person" root) st).1.
Proof.
  intros Hkeeps.
  assert (Hall : ∀ person, person ∈ xpath_descendant "person" root →
            ∀ study_id form study_id_key name form_name event,
              head (xpath_child "study_id" person) = Some study_id →
              form ∈ forms_of person →
              text study_id = Some study_id_key →
              head (xpath_child "name" form) = Some name →
              text name = Some form_name →
              event ∈ xpath_child "event" form →
              keeps study_id_key form_name event).
  { intros person Hp study_id form key name form_name event ? ? ? ? ? ?.
    apply Hkeeps. exists person, study_id, form, name. by repeat split. }
  clear Hkeeps. revert st Hall.
  induction (xpath_descendant "person" root) as [|person persons IH];
    intros st Hall Hst; [exact Hst|].
  simpl. rewrite bind_state.
  assert (Hperson : Inv (do_person person st).1).
  { apply process_person_inv; [|done]. apply Hall. by left. }
  destruct (do_person person st).2 as [e|[]]; [done|].
  apply IH; [|done]. intros p Hp. apply Hall. by right.
Qed.

End RunInvariant.

(** The same for a property that the counters and [study_id_key] do not bear
    on. *)
Lemma process_forms_inv_locals def_field send_data_to_redcap rate_limit root
    skip_blanks bulk_send_blanks (Inv : state → Prop) person study_id forms st :
  (∀ st st', locals_only st st' → Inv st → Inv st') →
  (∀ form study_id_key name form_name event,
     form ∈ forms →
     text study_id = Some study_id_key →
     head (xpath_child "name" form) = Some name →
     text name = Some form_name →
     event ∈ xpath_child "event" form →
     ∀ form_key st, Inv st →
       Inv (process_event def_field send_data_to_redcap rate_limit root
              skip_blanks bulk_send_blanks study_id_key form_name form_key
              event st).1) →
  Inv st →
  Inv (process_forms def_field send_data_to_redcap rate_limit root skip_blanks
         bulk_send_blanks person study_id forms st).1.
Proof.
  intros Hlocals Hkeeps Hst.
  apply process_forms_inv; [| |exact Hkeeps|exact Hst].
  - intros f s. apply Hlocals. by repeat split.
  - intros lab key fk s. apply Hlocals. apply init_counters_locals.
Qed.

Lemma process_persons_inv_locals def_field send_data_to_redcap rate_limit root
    skip_blanks bulk_send_blanks (Inv : state → Prop) st :
  (∀ st st', locals_only st st' → Inv st → Inv st') →
  (∀ f st, Inv st → Inv (set_person_count f st)) →
  (∀ study_id_key form_name event,
     visited root study_id_key form_name event →
     ∀ form_key st, Inv st →
       Inv (process_event def_field send_data_to_redcap rate_limit root
              skip_blanks bulk_send_blanks study_id_key form_name form_key
              event st).1) →
  Inv st →
  Inv (process_persons def_field send_data_to_redcap rate_limit root
         skip_blanks bulk_send_blanks (xpath_descendant "person" root) st).1.
Proof.
  intros Hlocals Hcount Hkeeps Hst.
  apply process_persons_inv; [| |exact Hcount|exact Hkeeps|exact Hst].
  - intros f s. apply Hlocals. by repeat split.
  - intros lab key fk s. apply Hlocals. apply init_counters_locals.
Qed.

(** ** The whole run *)

Lemma mark_all_sent_locals deferred st :
  person_count (mark_all_sent deferred st).1 = person_count st ∧
  blanks (mark_all_sent deferred st).1 = blanks st.
Proof.
  revert st. induction deferred as [|[[[s f] e] record] deferred IH]; intros st.
  { done. }
  simpl mark_all_sent. unfold mark_sent. rewrite bind_modify.
  destruct (IH (set_sent_events (λ x, {[(s, f, e)]} ∪ x) st)) as [-> ->]. done.
Qed.

Section RunProperties.

Variable def_field : string.
Variable send_data_to_redcap : list request → request → send_result.
Variable rate_limit : Z.
Variable root : Element.
Variables skip_blanks bulk_send_blanks : bool.

Local Abbreviation do_event :=
  (process_event def_field send_data_to_redcap rate_limit root
                 skip_blanks bulk_send_blanks).
Local Abbreviation do_persons :=
  (process_persons def_field send_data_to_redcap rate_limit root
                   skip_blanks bulk_send_blanks).
Local Abbreviation do_person :=
  (process_person def_field send_data_to_redcap rate_limit root
                  skip_blanks bulk_send_blanks).
Local Abbreviation do_blanks := (send_blanks send_data_to_redcap rate_limit).
Local Abbreviation do_run :=
  (generate_output def_field send_data_to_redcap rate_limit root
                   skip_blanks bulk_send_blanks).

(** The bulk upload, case by case. *)
Lemma send_blanks_run st :
  do_blanks st
  = match blanks st with
    | [] => (st, inr tt)
    | _ :: _ =>
        let request := (create_redcap_records (blanks st), true) in
        let st1 := set_requests (λ l, l ++ [request]) st in
        match send_data_to_redcap (requests st) request with
        | Sent response =>
            (mark_all_sent (blanks st);;;
             _ <- lift (getitem response "count");; ret tt) st1
        | RedcapError msg =>
            (handle_errors_in_redcap_xml_response msg;;; ret tt) st1
        | Raises e => (st1, inl e)
        end
    end.
Proof.
  unfold send_blanks. rewrite bind_gets.
  destruct (blanks st) as [|item deferred] eqn:Hb; [done|].
  unfold upload_data, Throttle, client_call. unfold bind at 1.
  by destruct (send_data_to_redcap _ _).
Qed.

(** What the bulk upload does to the traffic, whether it returns or
    raises. *)
Lemma send_blanks_effect st :
  let st' := (do_blanks st).1 in
  sent_events st ⊆ sent_events st' ∧
  (∀ key, key ∈ sent_events st' →
          key ∈ sent_events st ∨ key ∈ sent_key <$> blanks st) ∧
  (∃ more, requests st' = requests st ++ more ∧
           Forall (λ r : request, r.2 = true) more) ∧
  person_count st' = person_count st.
Proof.
  intros st'. subst st'. rewrite send_blanks_run.
  destruct (blanks st) as [|item deferred] eqn:Hb.
  { repeat split; [done|by left|]. exists []. by rewrite app_nil_r. }
  cbv zeta. set (req := (create_redcap_records (item :: deferred), true)).
  set (st1 := set_requests _ st).
  destruct (send_data_to_redcap (requests st) req) as [response|msg|e].
  - destruct (mark_all_sent_spec (item :: deferred) st1)
      as (st2 & Hm & Hs & Hr & _).
    destruct (mark_all_sent_locals (item :: deferred) st1) as [Hp _].
    rewrite Hm in Hp. simpl in Hp.
    rewrite (bind_run _ _ _ _ _ Hm). unfold bind, lift.
    assert (Hst2 : sent_events st ⊆ sent_events st2 ∧
              (∀ key, key ∈ sent_events st2 →
                 key ∈ sent_events st ∨ key ∈ sent_key <$> item :: deferred) ∧
              (∃ more, requests st2 = requests st ++ more ∧
                       Forall (λ r : request, r.2 = true) more) ∧
              person_count st2 = person_count st).
    { rewrite Hs, Hr. repeat split.
      - apply union_subseteq_r.
      - intros key [Hk|Hk]%elem_of_union; [right|by left].
        by apply elem_of_list_to_set in Hk.
      - exists [req]. split; [done|]. by repeat constructor.
      - exact Hp. }
    by destruct (getitem response "count").
  - rewrite bind_state.
    destruct (handle_errors_same_world msg st1) as (Hs & Hr & _ & _ & Hp & _).
    assert (Hst2 : sent_events st
                   ⊆ sent_events (handle_errors_in_redcap_xml_response msg st1).1 ∧
              (∀ key, key ∈ sent_events
                              (handle_errors_in_redcap_xml_response msg st1).1 →
                 key ∈ sent_events st ∨ key ∈ sent_key <$> item :: deferred) ∧
              (∃ more, requests (handle_errors_in_redcap_xml_response msg st1).1
                       = requests st ++ more ∧
                       Forall (λ r : request, r.2 = true) more) ∧
              person_count (handle_errors_in_redcap_xml_response msg st1).1
              = person_count st).
    { rewrite Hs, Hr, Hp. repeat split; [done|by left|].
      exists [req]. split; [done|]. by repeat constructor. }
    by destruct (handle_errors_in_redcap_xml_response msg st1).2.
  - repeat split; [done|by left|].
    exists [req]. split; [done|]. by repeat constructor.
Qed.

(** The state a run ends in: that of the loop over the persons when it
    raised, that of the bulk upload otherwise. *)
Lemma generate_output_state st :
  let persons := do_persons (xpath_descendant "person" root) (fresh_locals st) in
  (do_run st).1
  = match persons.2 with
    | inl _ => persons.1
    | inr _ => (do_blanks persons.1).1
    end.
Proof.
  intros persons. unfold generate_output. rewrite bind_modify, bind_state.
  fold persons. destruct persons.2 as [e|[]]; [done|].
  rewrite bind_state. by destruct (do_blanks persons.1).2.
Qed.

Lemma traffic_grows_locals st0 st st' :
  locals_only st st' → traffic_grows root st0 st → traffic_grows root st0 st'.
Proof.
  intros (Hs & Hr & _ & _ & Hb & _). unfold traffic_grows.
  by rewrite Hs, Hr, Hb.
Qed.

Lemma traffic_grows_event st0 study_id_key form_name form_key event st :
  visited root study_id_key form_name event →
  traffic_grows root st0 st →
  traffic_grows root st0 (do_event study_id_key form_name form_key event st).1.
Proof.
  intros Hvisited (Hsub & Hkeys & (more & Hreq & Hover) & Hblanks).
  assert (Hkey : in_document root (study_id_key, form_name, name_of event))
    by (by exists study_id_key, form_name, event).
  destruct (process_event_effect def_field send_data_to_redcap rate_limit root
              skip_blanks bulk_send_blanks study_id_key form_name form_key
              event st) as [Heffect _].
  destruct Heffect as [Hs Hr Hb _ | json _ _ _ Hs Hr Hb _ | json _ Hr Hb Hs].
  - unfold traffic_grows. rewrite Hs, Hr, Hb. repeat split; eauto.
  - unfold traffic_grows. rewrite Hs, Hr, Hb. repeat split; eauto.
    apply Forall_app. split; [done|]. by repeat constructor.
  - unfold traffic_grows. rewrite Hr, Hb, Hreq.
    assert (Hmore : ∃ more',
              (requests st0 ++ more) ++ [([json], true)] = requests st0 ++ more' ∧
              Forall (λ r : request, r.2 = true) more').
    { exists (more ++ [([json], true)]). rewrite app_assoc. split; [done|].
      apply Forall_app. split; [done|]. by repeat constructor. }
    destruct Hs as [[-> _] | [-> _]].
    + repeat split; [set_solver | | done | done].
      intros key [Hk|Hk]%elem_of_union; [|by apply Hkeys].
      apply elem_of_singleton in Hk as ->. by right.
    + by repeat split.
Qed.

(** X7: a run never takes a mark away from the tracker and marks nothing but
    triples of events of the document; it leaves the requests made before it
    in place, and every request it makes has the overwrite flag set.  This
    holds whether the run returns or raises. *)
Theorem generate_output_traffic (st : state) :
  let st' := (do_run st).1 in
  sent_events st ⊆ sent_events st' ∧
  (∀ key, key ∈ sent_events st' → key ∈ sent_events st ∨ in_document root key) ∧
  (∃ more, requests st' = requests st ++ more ∧
           Forall (λ r : request, r.2 = true) more).
Proof.
  intros st'. subst st'. rewrite generate_output_state. cbv zeta.
  assert (Hpersons : traffic_grows root (fresh_locals st)
            (do_persons (xpath_descendant "person" root) (fresh_locals st)).1).
  { apply process_persons_inv_locals.
    - apply traffic_grows_locals.
    - intros f s. unfold traffic_grows. done.
    - intros key fn event Hvisited fk s. by apply traffic_grows_event.
    - repeat split; [done|by left| |by constructor].
      exists []. by rewrite app_nil_r. }
  destruct Hpersons as (Hsub & Hkeys & (more & Hreq & Hover) & Hblanks).
  set (st2 := (do_persons (xpath_descendant "person" root) (fresh_locals st)).1)
    in *.
  destruct (do_persons _ _).2 as [e|[]].
  { repeat split; [exact Hsub|exact Hkeys|]. by exists more. }
  destruct (send_blanks_effect st2) as (Hsub2 & Hkeys2 & (more2 & Hreq2 & Hover2) & _).
  repeat split.
  - etrans; [exact Hsub|exact Hsub2].
  - intros key Hk. destruct (Hkeys2 key Hk) as [Hk2|Hk2]; [by apply Hkeys|].
    right. apply list_elem_of_fmap in Hk2 as (item & -> & Hitem).
    by eapply Forall_forall in Hblanks.
  - exists (more ++ more2). rewrite Hreq2, Hreq, app_assoc. split; [done|].
    by apply Forall_app.
Qed.

Lemma no_traffic_locals st0 st st' :
  locals_only st st' → no_traffic st0 st → no_traffic st0 st'.
Proof.
  intros (Hs & Hr & _ & He & Hb & _). unfold no_traffic.
  by rewrite Hs, Hr, Hb, He.
Qed.

(** A run whose steps make no traffic makes none. *)
Lemma generate_output_no_traffic st :
  (∀ study_id_key form_name event,
     visited root study_id_key form_name event →
     ∀ form_key s, no_traffic (fresh_locals st) s →
       no_traffic (fresh_locals st)
         (do_event study_id_key form_name form_key event s).1) →
  sent_events (do_run st).1 = sent_events st ∧
  requests (do_run st).1 = requests st ∧
  errors (do_run st).1 = [].
Proof.
  intros Hstep. rewrite generate_output_state. cbv zeta.
  assert (Hpersons : no_traffic (fresh_locals st)
            (do_persons (xpath_descendant "person" root) (fresh_locals st)).1).
  { apply process_persons_inv_locals.
    - apply no_traffic_locals.
    - intros f s. unfold no_traffic. done.
    - exact Hstep.
    - by repeat split. }
  destruct Hpersons as (Hs & Hr & Hb & He).
  set (st2 := (do_persons (xpath_descendant "person" root) (fresh_locals st)).1)
    in *.
  destruct (do_persons _ _).2 as [e|[]]; [done|].
  rewrite send_blanks_run, Hb. done.
Qed.

(** X8: when the tracker already holds the triple of every event of the
    document, the run makes no request, marks nothing and reports no error:
    a second run over a document whose events were all marked sends
    nothing. *)
Theorem generate_output_all_sent (st : state) :
  (∀ study_id_key form_name event,
     visited root study_id_key form_name event →
     (study_id_key, form_name, name_of event) ∈ sent_events st) →
  sent_events (do_run st).1 = sent_events st ∧
  requests (do_run st).1 = requests st ∧
  errors (do_run st).1 = [].
Proof.
  intros Hsent. apply generate_output_no_traffic.
  intros key fn event Hvisited fk s (Hs & Hr & Hb & He).
  destruct (process_event_effect def_field send_data_to_redcap rate_limit root
              skip_blanks bulk_send_blanks key fn fk event s) as [Heffect _].
  destruct Heffect as [Hs' Hr' Hb' He' | json _ _ Hnot | json Hnot].
  - unfold no_traffic. by rewrite Hs', Hr', Hb', He'.
  - destruct Hnot. rewrite Hs. by apply Hsent.
  - destruct Hnot. rewrite Hs. by apply Hsent.
Qed.

Lemma name_of_truthy event :
  truthy (name_of event) = true →
  ∃ name_text, (find "name" event ≫= text) = Some name_text ∧ name_text ≠ "".
Proof.
  unfold name_of, findtext_or, findtext.
  destruct (find "name" event) as [c|]; [|done]. simpl.
  destruct (text c) as [s|]; [|done]. simpl.
  intros Hs. exists s. split; [done|]. by apply truthy_spec.
Qed.

(** X9: when one event/field/name element of the document has no text,
    every event is rejected before anything is sent: the run makes no
    request, marks nothing and defers nothing, whatever the other events
    hold. *)
Theorem generate_output_invalid_field_name (st : state) :
  (∃ name, name ∈ xpath_event_field_name root ∧ text name = None) →
  sent_events (do_run st).1 = sent_events st ∧
  requests (do_run st).1 = requests st ∧
  errors (do_run st).1 = [] ∧
  (∀ study_id_key form_name form_key event s,
     truthy (name_of event) = true →
     do_event study_id_key form_name form_key event s
     = (s, inl (Exception "Expected non-blank element event/field/name"))).
Proof.
  intros Hbad.
  assert (Hstep : ∀ study_id_key form_name form_key event s,
            truthy (name_of event) = true →
            do_event study_id_key form_name form_key event s
            = (s, inl (Exception "Expected non-blank element event/field/name"))).
  { intros key fn fk event s Hname.
    destruct (name_of_truthy event Hname) as (name_text & Hfind & Hne).
    apply process_event_rejected; [done|].
    by eapply create_import_data_json_field_name_none. }
  assert (Hrun := generate_output_no_traffic st).
  destruct Hrun as (Hs & Hr & He).
  { intros key fn event _ fk s Hinv.
    destruct (truthy (name_of event)) eqn:Hname.
    - by rewrite Hstep.
    - by rewrite process_event_unnamed. }
  by repeat split.
Qed.

(** X10: when the first person of the document has a study_id and no form,
    the run ends with UnboundLocalError at the message of line 231, which
    reads a variable only the loop over the forms assigns; no request is
    made, nothing is marked and no report is returned. *)
Theorem generate_output_first_person_without_forms
    person persons study_id (st : state) :
  xpath_descendant "person" root = person :: persons →
  head (xpath_child "study_id" person) = Some study_id →
  forms_of person = [] →
  do_run st
  = (set_person_count (λ n, n + 1) (fresh_locals st), inl UnboundLocalError).
Proof.
  intros Hpersons Hid Hforms.
  unfold generate_output. rewrite bind_modify, Hpersons.
  simpl process_persons. unfold process_person at 1.
  rewrite !bind_bind, bind_modify, Hid. fold (forms_of person).
  rewrite Hforms. reflexivity.
Qed.

Lemma process_person_count person st :
  person_count (do_person person st).1 = person_count st + 1.
Proof.
  unfold process_person. rewrite bind_modify.
  destruct (head (xpath_child "study_id" person)) as [study_id|]; [|done].
  rewrite bind_state. fold (forms_of person).
  assert (Hforms : person_count
            (process_forms def_field send_data_to_redcap rate_limit root
               skip_blanks bulk_send_blanks person study_id (forms_of person)
               (set_person_count (λ n, n + 1) st)).1
            = person_count st + 1).
  { apply (process_forms_inv_locals def_field send_data_to_redcap rate_limit
             root skip_blanks bulk_send_blanks
             (λ s, person_count s = person_count st + 1)).
    - intros s s' (_ & _ & _ & _ & _ & Hp) Hs. by rewrite Hp.
    - intros form key name fn event _ _ _ _ _ fk s Hs.
      destruct (process_event_effect def_field send_data_to_redcap rate_limit
                  root skip_blanks bulk_send_blanks key fn fk event s)
        as [_ Hp].
      by rewrite Hp.
    - reflexivity. }
  destruct (process_forms _ _ _ _ _ _ _ _ _ _).2 as [e|[]]; [done|].
  rewrite bind_gets. by destruct (study_id_key _).
Qed.

Lemma process_persons_count persons st st' :
  do_persons persons st = (st', inr tt) →
  person_count st' = person_count st + Z.of_nat (length persons).
Proof.
  revert st. induction persons as [|person persons IH]; intros st.
  { intros [= <-]. simpl. lia. }
  simpl process_persons. unfold bind at 1.
  pose proof (process_person_count person st) as Hp.
  destruct (do_person person st) as [st1 [e|[]]]; [discriminate|].
  intros Hrest. rewrite (IH _ Hrest). simpl in Hp. rewrite Hp.
  rewrite length_cons. lia.
Qed.

(** X11: when the run returns, the total_subjects of its report is the
    number of person elements of the document, at any depth, and the errors
    and counters of the report are those of the final state. *)
Theorem generate_output_total_subjects (st st' : state) (report : ReportData) :
  do_run st = (st', inr report) →
  total_subjects report = Z.of_nat (length (xpath_descendant "person" root)) ∧
  report_errors report = errors st' ∧
  report_form_details report = form_details st' ∧
  report_subject_details report = subject_details st'.
Proof.
  unfold generate_output. rewrite bind_modify. unfold bind at 1.
  destruct (do_persons (xpath_descendant "person" root) (fresh_locals st))
    as [st1 [e|[]]] eqn:Hpersons; [discriminate|].
  unfold bind at 1.
  pose proof (send_blanks_effect st1) as (_ & _ & _ & Hp).
  destruct (do_blanks st1) as [st2 [e|[]]]; [discriminate|].
  rewrite bind_gets. intros [= <- <-]. simpl.
  repeat split. simpl in Hp. rewrite Hp.
  by rewrite (process_persons_count _ _ _ Hpersons).
Qed.

(** X13: a bulk upload that REDCap accepts with a response that has no
    'count' ends with the exception of [response['count']], after the triple
    of every deferred item was marked. *)
Theorem send_blanks_marks_before_count (st : state) response e :
  blanks st ≠ [] →
  send_data_to_redcap (requests st) (create_redcap_records (blanks st), true)
    = Sent response →
  getitem response "count" = inl e →
  (do_blanks st).2 = inl e ∧
  sent_events (do_blanks st).1
    = list_to_set (sent_key <$> blanks st) ∪ sent_events st ∧
  requests (do_blanks st).1
    = requests st ++ [(create_redcap_records (blanks st), true)].
Proof.
  intros Hblanks Hsent Hcount. rewrite send_blanks_run.
  destruct (blanks st) as [|item deferred] eqn:Hb; [done|].
  cbv zeta. rewrite Hsent.
  destruct (mark_all_sent_spec (item :: deferred)
              (set_requests
                 (λ l, l ++ [(create_redcap_records (item :: deferred), true)])
                 st)) as (st2 & Hm & Hs & Hr & _).
  rewrite (bind_run _ _ _ _ _ Hm). unfold bind, lift. rewrite Hcount.
  by repeat split.
Qed.

End RunProperties.

(** ** The counters of a form *)

(** X12: the initialisation of lines 153-162 puts at 0 the counters that do
    not exist yet and keeps those that do, so that a form met again goes on
    counting; the counters of the other subjects and forms are not touched,
    and the lab id of a subject is that of the first person seen for it. *)
Theorem init_counters_keeps lab study_id_key form_key (st : state) :
  let st' := (init_counters lab study_id_key form_key st).1 in
  subject_count study_id_key form_key st'
    = Some (default 0 (subject_count study_id_key form_key st)) ∧
  form_count form_key st' = Some (default 0 (form_count form_key st)) ∧
  (∀ key fk, (key, fk) ≠ (study_id_key, form_key) →
     subject_count key fk st' = subject_count key fk st) ∧
  (∀ fk, fk ≠ form_key → form_count fk st' = form_count fk st) ∧
  lab_id <$> subject_details st' !! study_id_key
    = Some (from_option lab_id lab (subject_details st !! study_id_key)).
Proof.
  intros st'. subst st'. unfold init_counters. rewrite !bind_modify.
  unfold subject_count, form_count. simpl.
  assert (Hcounter : ∀ (counters : gmap string Z) fk,
            init_counter form_key counters !! fk
            = if decide (fk = form_key)
              then Some (default 0 (counters !! form_key))
              else counters !! fk).
  { intros counters fk. unfold init_counter.
    destruct (counters !! form_key) as [n|] eqn:Hn.
    - case_decide; [by subst|done].
    - case_decide; [subst; by rewrite lookup_insert_eq|by rewrite lookup_insert_ne]. }
  assert (Hsubject : ∀ key,
            init_subject lab study_id_key (subject_details st) !! key
            = if decide (key = study_id_key)
              then Some (from_option id (mkSubject lab ∅)
                           (subject_details st !! study_id_key))
              else subject_details st !! key).
  { intros key. unfold init_subject.
    destruct (subject_details st !! study_id_key) as [subj|] eqn:Hs.
    - case_decide; [by subst|done].
    - case_decide; [subst; by rewrite lookup_insert_eq|by rewrite lookup_insert_ne]. }
  repeat split.
  - rewrite lookup_alter_eq, Hsubject, decide_True by done. simpl.
    rewrite Hcounter, decide_True by done.
    by destruct (subject_details st !! study_id_key).
  - by rewrite Hcounter, decide_True.
  - intros key fk Hne.
    destruct (decide (key = study_id_key)) as [->|Hkey].
    + rewrite lookup_alter_eq, Hsubject, decide_True by done. simpl.
      rewrite Hcounter, decide_False by congruence.
      by destruct (subject_details st !! study_id_key).
    + by rewrite lookup_alter_ne, Hsubject, decide_False.
  - intros fk Hne. by rewrite Hcounter, decide_False.
  - rewrite lookup_alter_eq, Hsubject, decide_True by done. simpl.
    by destruct (subject_details st !! study_id_key).
Qed.

(** ** skip_blanks before bulk_send_blanks *)

Lemma bind_ext {A B} (m m' : M A) (k k' : A → M B) st :
  m st = m' st → (∀ a st', k a st' = k' a st') →
  bind m k st = bind m' k' st.
Proof.
  intros Hm Hk. unfold bind. rewrite Hm.
  destruct (m' st) as [st' [e|a]]; [done|apply Hk].
Qed.

Section SkipBlanks.

Variable def_field : string.
Variable send_data_to_redcap : list request → request → send_result.
Variable rate_limit : Z.
Variable root : Element.
Variables bulk bulk' : bool.

Lemma process_event_skip_blanks study_id_key form_name form_key event st :
  process_event def_field send_data_to_redcap rate_limit root true bulk
    study_id_key form_name form_key event st
  = process_event def_field send_data_to_redcap rate_limit root true bulk'
      study_id_key form_name form_key event st.
Proof.
  unfold process_event. destruct (truthy _); [|done].
  apply bind_ext; [done|]. intros [json contains_data] st1.
  apply bind_ext; [done|]. intros [] st2; [done|].
  by destruct contains_data.
Qed.

Lemma process_events_skip_blanks_bulk study_id_key form_name form_key events st :
  process_events def_field send_data_to_redcap rate_limit root true bulk
    study_id_key form_name form_key events st
  = process_events def_field send_data_to_redcap rate_limit root true bulk'
      study_id_key form_name form_key events st.
Proof.
  revert st. induction events as [|event events IH]; intros st; [done|].
  simpl. apply bind_ext; [apply process_event_skip_blanks|].
  intros [] st'; [apply IH|done].
Qed.

Lemma process_forms_skip_blanks person study_id forms st :
  process_forms def_field send_data_to_redcap rate_limit root true bulk
    person study_id forms st
  = process_forms def_field send_data_to_redcap rate_limit root true bulk'
      person study_id forms st.
Proof.
  revert st. induction forms as [|form forms IH]; intros st; [done|].
  simpl. apply bind_ext; [|intros [] st'; apply IH].
  unfold process_form.
  destruct (xpath_child "name" form) as [|name names]; [done|].
  destruct (text name); [|done]. destruct (text study_id); [|done].
  apply bind_ext; [done|]. intros [] st1.
  apply bind_ext; [done|]. intros [] st2.
  apply process_events_skip_blanks_bulk.
Qed.

Lemma process_persons_skip_blanks persons st :
  process_persons def_field send_data_to_redcap rate_limit root true bulk
    persons st
  = process_persons def_field send_data_to_redcap rate_limit root true bulk'
      persons st.
Proof.
  revert st. induction persons as [|person persons IH]; intros st; [done|].
  simpl. apply bind_ext; [|intros [] st'; apply IH].
  unfold process_person. apply bind_ext; [done|]. intros [] st1.
  destruct (head (xpath_child "study_id" person)); [|done].
  apply bind_ext; [apply process_forms_skip_blanks|done].
Qed.

(** X14: with skip_blanks set, bulk_send_blanks has no effect: the run ends
    in the same state with the same report or exception whether it is set
    or not, a blank event ending the loop over its form before it could be
    deferred. *)
Theorem generate_output_skip_blanks_ignores_bulk (st : state) :
  generate_output def_field send_data_to_redcap rate_limit root true bulk st
  = generate_output def_field send_data_to_redcap rate_limit root true bulk' st.
Proof.
  unfold generate_output. apply bind_ext; [done|]. intros [] st1.
  apply bind_ext; [apply process_persons_skip_blanks|done].
Qed.

End SkipBlanks.

(** ** The further properties on sample runs *)

Lemma process_event_defers_blank_witness :
  let st := Runs.in_form ∅ in
  process_event "record_id" Samples.accepting 10 Runs.one_form false true
      "S1" "cbc" "Total_cbc_Forms" (Samples.blank "1_arm_1") st
  = (set_blanks (λ l, l ++ [("S1", "cbc", "1_arm_1", Runs.json "1_arm_1" "")]) st,
     inr Continue).
Proof.
  intros st.
  apply (process_event_defers_blank "record_id" Samples.accepting 10
           Runs.one_form false true "S1" "cbc" "Total_cbc_Forms"
           (Samples.blank "1_arm_1") (Runs.json "1_arm_1" "") st).
  - reflexivity.
  - reflexivity.
  - reflexivity.
  - vm_compute; reflexivity.
  - change (("S1", "cbc", "1_arm_1") ∉ (∅ : gset (string * string * string))).
    apply not_elem_of_empty.
Defined.

Lemma generate_output_all_sent_witness :
  let document :=
    Samples.study
      [Samples.person "S1" [Samples.form "cbc" [Samples.with_data "1_arm_1"]]] in
  let st := set_sent_events (λ _, {[("S1", "cbc", "1_arm_1")]}) Samples.st0 in
  let run :=
    generate_output "record_id" Samples.accepting 10 document false false st in
  sent_events run.1 = {[("S1", "cbc", "1_arm_1")]} ∧
  requests run.1 = [] ∧ errors run.1 = [].
Proof.
  intros document st run.
  apply (generate_output_all_sent "record_id" Samples.accepting 10 document
           false false st).
  intros key fn event
    (person & study_id & form & name & Hp & Hid & Hkey & Hform & Hname & Hfn & He).
  vm_compute in Hp. apply list_elem_of_singleton in Hp. subst person.
  vm_compute in Hid. injection Hid as <-.
  vm_compute in Hkey. injection Hkey as <-.
  vm_compute in Hform. apply list_elem_of_singleton in Hform. subst form.
  vm_compute in Hname. injection Hname as <-.
  vm_compute in Hfn. injection Hfn as <-.
  vm_compute in He. apply list_elem_of_singleton in He. subst event.
  change (("S1", "cbc", "1_arm_1")
          ∈ ({[("S1", "cbc", "1_arm_1")]} : gset (string * string * string))).
  apply elem_of_singleton. reflexivity.
Defined.

Lemma generate_output_invalid_field_name_witness :
  let unnamed :=
    mkElement "field" [] None
      [Samples.leaf "name" None; Samples.leaf "value" (Some "7")] in
  let document :=
    Samples.study
      [Samples.person "S1" [Samples.form "cbc" [Samples.with_data "1_arm_1"]];
       Samples.person "S2" [Samples.form "cbc" [Samples.event "1_arm_1" [unnamed]]]] in
  let run :=
    generate_output "record_id" Samples.accepting 10 document false false
      Samples.st0 in
  sent_events run.1 = ∅ ∧ requests run.1 = [] ∧ errors run.1 = [].
Proof.
  intros unnamed document run.
  destruct (generate_output_invalid_field_name "record_id" Samples.accepting 10
              document false false Samples.st0) as (Hs & Hr & He & _).
  - exists (Samples.leaf "name" None). split; [|reflexivity].
    apply (list_elem_of_lookup_2 _ 1). vm_compute. reflexivity.
  - by repeat split.
Defined.

Lemma generate_output_first_person_without_forms_witness :
  let person :=
    mkElement "person" [] None [Samples.leaf "study_id" (Some "S1")] in
  generate_output "record_id" Samples.accepting 10 (Samples.study [person])
    false false Samples.st0
  = (set_person_count (λ n, n + 1) (fresh_locals Samples.st0),
     inl UnboundLocalError).
Proof.
  intros person.
  apply (generate_output_first_person_without_forms "record_id"
           Samples.accepting 10 (Samples.study [person]) false false
           person [] (Samples.leaf "study_id" (Some "S1")) Samples.st0);
    reflexivity.
Defined.

Lemma generate_output_total_subjects_witness :
  let document :=
    Samples.study
      [Samples.person "S1" [Samples.form "cbc" [Samples.with_data "1_arm_1"]];
       Samples.person "S2" [Samples.form "cbc" [Samples.blank "1_arm_1"]]] in
  ∃ st' report,
    generate_output "record_id" Samples.accepting 10 document false false
      Samples.st0 = (st', inr report) ∧
    total_subjects report = 2.
Proof.
  intros document.
  destruct (generate_output "record_id" Samples.accepting 10 document false
              false Samples.st0) as [st' [e|report]] eqn:Hrun.
  { vm_compute in Hrun. discriminate. }
  exists st', report. split; [reflexivity|].
  exact (proj1 (generate_output_total_subjects "record_id" Samples.accepting 10
                  document false false Samples.st0 st' report Hrun)).
Defined.

Lemma send_blanks_marks_before_count_witness :
  let remote : list request → request → send_result :=
    λ _ _, Sent (PDict []) in
  let st := set_blanks (λ _, [("S1", "cbc", "E1", Runs.json "E1" "")])
              Samples.st0 in
  (send_blanks remote 10 st).2 = inl (KeyError "count") ∧
  sent_events (send_blanks remote 10 st).1
    = list_to_set [("S1", "cbc", "E1")] ∪ ∅ ∧
  requests (send_blanks remote 10 st).1
    = [(create_redcap_records (blanks st), true)].
Proof.
  intros remote st.
  apply (send_blanks_marks_before_count remote 10 st (PDict []) (KeyError "count"));
    [discriminate | reflexivity | reflexivity].
Defined.

(** ** The counters of the report add up *)

Lemma total_insert_None form_key key subj (details : gmap string subject) :
  details !! key = None →
  total form_key (<[key := subj]> details)
  = count_of form_key subj + total form_key details.
Proof.
  intros Hnone. unfold total.
  rewrite map_fold_insert_L; [done| |done]. intros; lia.
Qed.

Lemma total_insert_Some form_key key old new (details : gmap string subject) :
  details !! key = Some old →
  total form_key (<[key := new]> details)
  = total form_key details - count_of form_key old + count_of form_key new.
Proof.
  intros Hold. rewrite <- insert_delete_eq.
  rewrite total_insert_None by apply lookup_delete_eq.
  unfold total at 2.
  rewrite (map_fold_delete_L _ _ key old details); [|intros; lia|done].
  fold (total form_key (delete key details)). lia.
Qed.

Lemma counters_consistent_ext st st' :
  subject_details st' = subject_details st →
  form_details st' = form_details st →
  counters_consistent st → counters_consistent st'.
Proof. unfold counters_consistent. by intros -> ->. Qed.

Lemma init_counter_lookup form_key (counters : gmap string Z) fk :
  init_counter form_key counters !! fk
  = if decide (fk = form_key) then Some (default 0 (counters !! form_key))
    else counters !! fk.
Proof.
  unfold init_counter. destruct (counters !! form_key) as [n|] eqn:Hn.
  - case_decide; [by subst|done].
  - case_decide; [subst; by rewrite lookup_insert_eq|by rewrite lookup_insert_ne].
Qed.

Lemma count_of_init_counter form_key subj fk :
  count_of fk (mkSubject (lab_id subj) (init_counter form_key (form_counts subj)))
  = count_of fk subj.
Proof.
  unfold count_of. simpl. rewrite init_counter_lookup.
  case_decide; [by subst|done].
Qed.

(** The initialisation of the counters keeps them adding up. *)
Lemma init_counters_consistent lab study_id_key form_key st :
  counters_consistent st →
  counters_consistent (init_counters lab study_id_key form_key st).1.
Proof.
  intros [Htotal Hdom]. unfold init_counters. rewrite !bind_modify.
  unfold counters_consistent. simpl.
  set (g := λ subj, mkSubject (lab_id subj)
                      (init_counter form_key (form_counts subj))).
  assert (Hdetails : ∃ subj,
            init_subject lab study_id_key (subject_details st) !! study_id_key
              = Some subj ∧
            alter g study_id_key
              (init_subject lab study_id_key (subject_details st))
            = <[study_id_key := g subj]> (subject_details st) ∧
            (subject_details st !! study_id_key = Some subj ∨
             subject_details st !! study_id_key = None ∧
             subj = mkSubject lab ∅)).
  { unfold init_subject.
    destruct (subject_details st !! study_id_key) as [subj|] eqn:Hs.
    - exists subj. split; [done|]. split; [|by left].
      apply map_eq. intros k. destruct (decide (k = study_id_key)) as [->|].
      + by rewrite lookup_alter_eq, lookup_insert_eq, Hs.
      + by rewrite lookup_alter_ne, lookup_insert_ne.
    - exists (mkSubject lab ∅). split; [apply lookup_insert_eq|].
      split; [|by right].
      apply map_eq. intros k. destruct (decide (k = study_id_key)) as [->|].
      + by rewrite lookup_alter_eq, !lookup_insert_eq.
      + by rewrite lookup_alter_ne, !lookup_insert_ne. }
  destruct Hdetails as (subj & _ & -> & Hsubj). split.
  - intros fk.
    assert (Hfd : default 0 (init_counter form_key (form_details st) !! fk)
                  = default 0 (form_details st !! fk)).
    { rewrite init_counter_lookup. case_decide; [by subst|done]. }
    rewrite Hfd, <- Htotal.
    destruct Hsubj as [Hs | [Hs ->]].
    + rewrite (total_insert_Some _ _ _ _ _ Hs).
      unfold g. rewrite count_of_init_counter. lia.
    + rewrite (total_insert_None _ _ _ _ Hs).
      unfold g. by rewrite count_of_init_counter.
  - intros key s fk Hkey Hfk. rewrite init_counter_lookup.
    case_decide; [done|].
    destruct (decide (key = study_id_key)) as [->|Hne].
    + rewrite lookup_insert_eq in Hkey. injection Hkey as <-.
      unfold g in Hfk. simpl in Hfk. rewrite init_counter_lookup in Hfk.
      rewrite decide_False in Hfk by done.
      destruct Hsubj as [Hs | [Hs ->]]; [by eapply Hdom|].
      simpl in Hfk. rewrite lookup_empty in Hfk. by destruct Hfk.
    + rewrite lookup_insert_ne in Hkey by done. by eapply Hdom.
Qed.

(** Counting an event keeps the counters adding up: the two counters go up
    together. *)
Lemma count_if_consistent contains_data study_id_key form_key st :
  counters_consistent st →
  counters_consistent (count_if contains_data study_id_key form_key st).1.
Proof.
  intros [Htotal Hdom]. destruct contains_data; [|done].
  unfold count_if, count_subject, count_form.
  rewrite bind_bind, bind_gets.
  destruct (subject_details st !! study_id_key) as [subj|] eqn:Hs; [|done].
  destruct (form_counts subj !! form_key) as [n|] eqn:Hn; [|done].
  rewrite bind_modify, bind_gets.
  change (form_details (set_subject_details _ st)) with (form_details st).
  destruct (Hdom study_id_key subj form_key Hs) as [m Hm]; [by eauto|].
  rewrite Hm. unfold counters_consistent. simpl. split.
  - intros fk. rewrite (total_insert_Some _ _ _ _ _ Hs), Htotal.
    unfold count_of. simpl.
    destruct (decide (fk = form_key)) as [->|Hne].
    + rewrite !lookup_insert_eq, Hn, Hm. simpl. lia.
    + rewrite !lookup_insert_ne by done. lia.
  - intros key s fk Hkey Hfk.
    destruct (decide (fk = form_key)) as [->|Hne];
      [rewrite lookup_insert_eq; eauto|].
    rewrite lookup_insert_ne by done.
    destruct (decide (key = study_id_key)) as [->|Hkne].
    + rewrite lookup_insert_eq in Hkey. injection Hkey as <-.
      simpl in Hfk. rewrite lookup_insert_ne in Hfk by done. by eapply Hdom.
    + rewrite lookup_insert_ne in Hkey by done. by eapply Hdom.
Qed.

Lemma mark_all_sent_details deferred st :
  subject_details (mark_all_sent deferred st).1 = subject_details st ∧
  form_details (mark_all_sent deferred st).1 = form_details st.
Proof.
  revert st. induction deferred as [|[[[s f] e] record] deferred IH]; intros st.
  { done. }
  simpl mark_all_sent. unfold mark_sent. rewrite bind_modify.
  destruct (IH (set_sent_events (λ x, {[(s, f, e)]} ∪ x) st)) as [-> ->]. done.
Qed.

Section Counters.

Variable def_field : string.
Variable send_data_to_redcap : list request → request → send_result.
Variable rate_limit : Z.
Variable root : Element.
Variables skip_blanks bulk_send_blanks : bool.

Local Abbreviation do_event :=
  (process_event def_field send_data_to_redcap rate_limit root
                 skip_blanks bulk_send_blanks).
Local Abbreviation do_run :=
  (generate_output def_field send_data_to_redcap rate_limit root
                   skip_blanks bulk_send_blanks).

(** What a pass of the loop over the events does to the counters: nothing,
    or it counts the event, whose triple the tracker then holds. *)
Lemma process_event_counters study_id_key form_name form_key event st :
  let st' := (do_event study_id_key form_name form_key event st).1 in
  (subject_details st' = subject_details st ∧
   form_details st' = form_details st) ∨
  (∃ s, subject_details s = subject_details st ∧
        form_details s = form_details st ∧
        st' = (count_if true study_id_key form_key s).1 ∧
        (study_id_key, form_name, name_of event) ∈ sent_events st').
Proof.
  intros st'. subst st'.
  destruct (truthy (name_of event)) eqn:Hname.
  2:{ rewrite process_event_unnamed by done. by left. }
  destruct (create_import_data_json root {[Some def_field := study_id_key]} event)
    as [e|[json contains_data]] eqn:Hjson.
  { rewrite (process_event_rejected _ _ _ _ _ _ _ _ _ _ _ _ Hname Hjson). by left. }
  rewrite (process_event_accepted _ _ _ _ _ _ _ _ _ _ _ _ _ Hname Hjson).
  case_bool_decide as Hsent.
  { destruct contains_data; [|by left]. right. exists st.
    split; [done|]. split; [done|]. rewrite bind_state.
    destruct (count_if_same_traffic true study_id_key form_key st) as [Hs _].
    assert ((study_id_key, form_name, name_of event)
            ∈ sent_events (count_if true study_id_key form_key st).1)
      by by rewrite Hs.
    by destruct (count_if true study_id_key form_key st).2. }
  destruct (negb contains_data && skip_blanks); [by left|].
  destruct (negb contains_data && bulk_send_blanks); [by left|].
  cbv zeta.
  destruct (send_data_to_redcap (requests st) ([json], true)) as [response|msg|e].
  - destruct contains_data; [|by left]. right.
    set (st2 := set_sent_events _ _). exists st2.
    split; [done|]. split; [done|]. rewrite bind_state.
    destruct (count_if_same_traffic true study_id_key form_key st2) as [Hs _].
    assert ((study_id_key, form_name, name_of event)
            ∈ sent_events (count_if true study_id_key form_key st2).1).
    { rewrite Hs. apply elem_of_union_l, elem_of_singleton. reflexivity. }
    by destruct (count_if true study_id_key form_key st2).2.
  - left. rewrite bind_state.
    set (st1 := set_requests _ st).
    destruct (handle_errors_same_world msg st1) as (_ & _ & Hsd & Hfd & _).
    by destruct (handle_errors_in_redcap_xml_response msg st1).2.
  - by left.
Qed.

(** X15: an event is counted only when the tracker holds its triple at the
    end of the step: when a pass of the loop over the events changes a
    counter, the event was already marked or has just been sent and
    marked. *)
Theorem process_event_counts_only_sent
    study_id_key form_name form_key event (st : state) :
  let st' := (do_event study_id_key form_name form_key event st).1 in
  subject_details st' ≠ subject_details st ∨
  form_details st' ≠ form_details st →
  (study_id_key, form_name, name_of event) ∈ sent_events st'.
Proof.
  intros st' Hchanged.
  destruct (process_event_counters study_id_key form_name form_key event st)
    as [[Hsd Hfd] | (s & _ & _ & _ & Hsent)]; [|exact Hsent].
  by destruct Hchanged.
Qed.

(** X16: in the state a run ends in, and so in the report it returns, each
    per-form counter is the sum over the subjects of their counters of that
    form, whether the run returns or raises. *)
Theorem generate_output_counters_add_up (st : state) :
  counters_consistent (do_run st).1 ∧
  (∀ report, (do_run st).2 = inr report →
     ∀ form_key,
       default 0 (report_form_details report !! form_key)
       = total form_key (report_subject_details report)).
Proof.
  assert (Hpersons : counters_consistent
            (process_persons def_field send_data_to_redcap rate_limit root
               skip_blanks bulk_send_blanks (xpath_descendant "person" root)
               (fresh_locals st)).1).
  { apply process_persons_inv.
    - intros f s. by apply counters_consistent_ext.
    - intros lab key fk s. apply init_counters_consistent.
    - intros f s. by apply counters_consistent_ext.
    - intros key fn event _ fk s Hs.
      destruct (process_event_counters key fn fk event s)
        as [[Hsd Hfd] | (s' & Hsd & Hfd & -> & _)].
      + by eapply counters_consistent_ext.
      + apply count_if_consistent. by eapply counters_consistent_ext.
    - split; [intros fk; apply map_fold_empty|].
      intros key subj fk Hkey. simpl in Hkey. by rewrite lookup_empty in Hkey. }
  assert (Hblanks : ∀ s, counters_consistent s →
            counters_consistent (send_blanks send_data_to_redcap rate_limit s).1).
  { intros s Hs. rewrite send_blanks_run.
    destruct (blanks s) as [|item deferred]; [done|]. cbv zeta.
    destruct (send_data_to_redcap _ _) as [response|msg|e].
    - rewrite bind_state.
      destruct (mark_all_sent_details (item :: deferred)
                  (set_requests
                     (λ l, l ++ [(create_redcap_records (item :: deferred), true)])
                     s)) as [Hsd Hfd].
      assert (counters_consistent
                (mark_all_sent (item :: deferred)
                   (set_requests
                      (λ l, l ++ [(create_redcap_records (item :: deferred), true)])
                      s)).1) by by eapply counters_consistent_ext.
      destruct (mark_all_sent _ _).2 as [e|[]]; [done|].
      unfold bind, lift. by destruct (getitem response "count").
    - rewrite bind_state.
      destruct (handle_errors_same_world msg
                  (set_requests
                     (λ l, l ++ [(create_redcap_records (item :: deferred), true)])
                     s)) as (_ & _ & Hsd & Hfd & _).
      assert (counters_consistent
                (handle_errors_in_redcap_xml_response msg
                   (set_requests
                      (λ l, l ++ [(create_redcap_records (item :: deferred), true)])
                      s)).1) by by eapply counters_consistent_ext.
      by destruct (handle_errors_in_redcap_xml_response msg _).2.
    - by eapply counters_consistent_ext. }
  assert (Hrun : counters_consistent (do_run st).1).
  { rewrite generate_output_state. cbv zeta.
    destruct (process_persons _ _ _ _ _ _ _ _).2 as [e|[]]; [done|].
    by apply Hblanks. }
  split; [exact Hrun|].
  intros report Hreport fk.
  assert (Hdetails : report_form_details report = form_details (do_run st).1 ∧
            report_subject_details report = subject_details (do_run st).1).
  { destruct (do_run st) as [st' [e|r]] eqn:Hgo; [discriminate|].
    injection Hreport as ->.
    by destruct (generate_output_total_subjects def_field send_data_to_redcap
                   rate_limit root skip_blanks bulk_send_blanks st st' report Hgo)
      as (_ & _ & -> & ->). }
  destruct Hdetails as [-> ->]. symmetry. apply Hrun.
Qed.

End Counters.

Lemma process_event_counts_only_sent_witness :
  ("S1", "cbc", "2_arm_1")
  ∈ sent_events
      (process_event "record_id" Samples.accepting 10 Runs.one_form false false
         "S1" "cbc" "Total_cbc_Forms" (Samples.with_data "2_arm_1")
         (Runs.in_form ∅)).1.
Proof.
  apply (process_event_counts_only_sent "record_id" Samples.accepting 10
           Runs.one_form false false "S1" "cbc" "Total_cbc_Forms"
           (Samples.with_data "2_arm_1") (Runs.in_form ∅)).
  right. intros Hsame.
  apply (f_equal (λ m : gmap string Z, m !! "Total_cbc_Forms")) in Hsame.
  vm_compute in Hsame. discriminate.
Defined.
